(** * Query-string parser and predicate builder of [tinydb_tool.commands.query_cmd]

    A shallow embedding of [parse_query_string], [parse_value],
    [parse_numeric_value], [is_numeric_value], [build_tinydb_query] and
    [parse_and_build_query], together with the parts of the Python runtime
    they rest on: [str.strip], [re.match] on the query pattern, [float()],
    and [eval] in the namespace the module builds.

    Conventions.
    - A Python [str] is a [string]; a character is a code point and the
      development covers U+0000 to U+00FF, the range of [ascii].
    - A Python [float] is an IEEE binary64 value, [spec_float] at precision 53
      and maximal exponent 1024.
    - A call that can raise returns a [result]. *)

From Stdlib Require Import ZArith NArith Bool List Ascii String Lia.
From Stdlib Require Import SpecFloat.
Import ListNotations.

Local Open Scope string_scope.
Set Warnings "-register-all".


(** ** Characters *)

Definition ord (c : ascii) : N := N_of_ascii c.

Definition in_range (lo hi : N) (c : ascii) : bool :=
  (lo <=? ord c)%N && (ord c <=? hi)%N.

(** [str.isspace] on one character, which is also [\s] of a [str] pattern:
    TAB to CR, FS to US, SPACE, NEL and NBSP. *)
Definition isspace (c : ascii) : bool :=
  in_range 9 13 c || in_range 28 32 c || (ord c =? 133)%N || (ord c =? 160)%N.

(** [str.isalnum] on one character: the ASCII letters and digits, and in the
    upper half the letters, the superscript digits and the vulgar fractions. *)
Definition isalnum (c : ascii) : bool :=
  in_range 48 57 c || in_range 65 90 c || in_range 97 122 c
  || (ord c =? 170)%N || in_range 178 179 c || (ord c =? 181)%N
  || in_range 185 186 c || in_range 188 190 c
  || in_range 192 214 c || in_range 216 246 c || in_range 248 255 c.

(** [\w] of a [str] pattern. *)
Definition isword (c : ascii) : bool := isalnum c || (ord c =? 95)%N.

(** [.] without DOTALL: anything but LF. *)
Definition notnewline (c : ascii) : bool := negb (ord c =? 10)%N.

(** The class [[A-Za-z0-9_]]. *)
Definition is_ascii_word (c : ascii) : bool :=
  in_range 48 57 c || in_range 65 90 c || in_range 97 122 c || (ord c =? 95)%N.

Definition is_digit (c : ascii) : bool := in_range 48 57 c.

(** ** Strings *)

Fixpoint lstrip (s : string) : string :=
  match s with
  | String c s' => if isspace c then lstrip s' else s
  | EmptyString => EmptyString
  end.

Fixpoint rstrip (s : string) : string :=
  match s with
  | EmptyString => EmptyString
  | String c s' =>
      match rstrip s' with
      | EmptyString => if isspace c then EmptyString else String c EmptyString
      | r => String c r
      end
  end.

(** [s.strip()] *)
Definition strip (s : string) : string := rstrip (lstrip s).

Fixpoint drop (n : nat) (s : string) : string :=
  match n, s with
  | O, _ => s
  | S n', String _ s' => drop n' s'
  | S _, EmptyString => EmptyString
  end.

Definition take (n : nat) (s : string) : string := substring 0 n s.

(** [s.startswith(p)] and [s.endswith(p)] *)
Definition startswith (s p : string) : bool := prefix p s.

Definition endswith (s p : string) : bool :=
  (length p <=? length s)%nat && (drop (length s - length p) s =? p).

(** An index of a slice, clamped the way [s[i:j]] does it. *)
Definition slice_index (len i : Z) : Z :=
  if (i <? 0)%Z then Z.max 0 (len + i) else Z.min i len.

(** [s[start:stop]] *)
Definition slice (s : string) (start stop : Z) : string :=
  let len := Z.of_nat (length s) in
  let a := slice_index len start in
  let b := slice_index len stop in
  substring (Z.to_nat a) (Z.to_nat (b - a)) s.

(** The longest run of [cls] at the start of [s], and the rest. *)
Fixpoint span (cls : ascii -> bool) (s : string) : string * string :=
  match s with
  | String c s' =>
      if cls c then let '(a, b) := span cls s' in (String c a, b) else (EmptyString, s)
  | EmptyString => (EmptyString, EmptyString)
  end.

Definition starts_with_cls (cls : ascii -> bool) (s : string) : bool :=
  match s with String c _ => cls c | EmptyString => false end.

(** Whether every character of [s] is in [cls]. *)
Fixpoint all (cls : ascii -> bool) (s : string) : bool :=
  match s with
  | EmptyString => true
  | String c s' => cls c && all cls s'
  end.

(** [sub in s] *)
Fixpoint contains (sub s : string) : bool :=
  prefix sub s
  || match s with
     | String _ s' => contains sub s'
     | EmptyString => false
     end.

(** ** Regular expressions

    The fragment of [re] the query pattern is written in, matched the way
    [re] matches: by backtracking, alternatives in the order written,
    repetitions greedy. *)

Inductive regex : Type :=
| Bol                                   (* ^ *)
| Eol                                   (* $ *)
| Lit (l : string)                      (* literal text *)
| Rep (cls : ascii -> bool) (min : nat) (* cls{min,}, greedy *)
| Seq (r1 r2 : regex)
| Alt (r1 r2 : regex)                   (* r1|r2 *)
| Group (i : nat) (r : regex).          (* (r), group number i *)

Record mstate : Type := MState {
  pos : nat;                      (* characters consumed so far *)
  rest : string;                  (* what is left of the subject *)
  groups : list (nat * string)    (* groups closed so far, latest first *)
}.

Definition orelse {A} (x y : option A) : option A :=
  match x with Some _ => x | None => y end.

Section Matcher.
Context {A : Type}.

(** As many characters of [cls] as there are, then one fewer, and so on
    down to [min], until the continuation accepts. *)
Fixpoint rep_greedy (cls : ascii -> bool) (min : nat)
         (p : nat) (s : string) (k : nat -> string -> option A) : option A :=
  let stop := match min with O => k p s | S _ => None end in
  match s with
  | String c s' =>
      if cls c
      then orelse (rep_greedy cls (Nat.pred min) (S p) s' k) stop
      else stop
  | EmptyString => stop
  end.

Fixpoint rmatch (r : regex) (st : mstate) (k : mstate -> option A) : option A :=
  match r with
  | Bol => if (pos st =? 0)%nat then k st else None
  | Eol =>
      match rest st with
      | EmptyString => k st
      | String c EmptyString => if (ord c =? 10)%N then k st else None
      | _ => None
      end
  | Lit l =>
      if prefix l (rest st)
      then k (MState (pos st + length l) (drop (length l) (rest st)) (groups st))
      else None
  | Rep cls min =>
      rep_greedy cls min (pos st) (rest st)
                 (fun p s => k (MState p s (groups st)))
  | Seq r1 r2 => rmatch r1 st (fun st' => rmatch r2 st' k)
  | Alt r1 r2 => orelse (rmatch r1 st k) (rmatch r2 st k)
  | Group i r =>
      rmatch r st (fun st' =>
        k (MState (pos st') (rest st')
                  ((i, take (pos st' - pos st) (rest st)) :: groups st')))
  end.
End Matcher.

(** What a match returns once the pattern is through: its groups. *)
Definition final (st : mstate) : option (list (nat * string)) := Some (groups st).

(** [re.match(r, s)]: the groups of the first way [r] matches at the start
    of [s], or [None]. *)
Definition re_match (r : regex) (s : string) : option (list (nat * string)) :=
  rmatch r (MState 0 s []) final.

(** [m.group(i)] for a group that took part in the match. *)
Fixpoint group (i : nat) (g : list (nat * string)) : string :=
  match g with
  | [] => EmptyString
  | (j, s) :: g' => if (i =? j)%nat then s else group i g'
  end.

Declare Scope regex_scope.
Delimit Scope regex_scope with re.
Notation "r1 +> r2" := (Seq r1 r2) (at level 61, right associativity) : regex_scope.
Notation "r1 <|> r2" := (Alt r1 r2) (at level 62, right associativity) : regex_scope.

(** The six operators, in the order the pattern lists them. *)
Definition operator_re : regex :=
  (Lit "==" <|> Lit "!=" <|> Lit ">=" <|> Lit "<=" <|> Lit ">" <|> Lit "<")%re.

(** [r'^(\w+)\s*(==|!=|>=|<=|>|<)\s*(.+)$'] *)
Definition pattern : regex :=
  (Bol +> Group 1 (Rep isword 1) +> Rep isspace 0
       +> Group 2 operator_re +> Rep isspace 0
       +> Group 3 (Rep notnewline 1) +> Eol)%re.

(** The operators as texts. *)
Definition operators : list string := ["=="; "!="; ">="; "<="; ">"; "<"].

(** A character an operator can start with. *)
Definition is_opchar (c : ascii) : bool :=
  (c =? "=")%char || (c =? "!")%char || (c =? ">")%char || (c =? "<")%char.

(** The end of the pattern, [\s*(.+)$]. *)
Definition value_re : regex :=
  (Rep isspace 0 +> Group 3 (Rep notnewline 1) +> Eol)%re.

(** Whether one of the operators occurs in [s]. *)
Definition has_operator (s : string) : bool :=
  existsb (fun op => contains op s) operators.

(** ** Python values *)

Definition float : Type := spec_float.

(** The values a document field or a query argument can hold: what the JSON
    store yields, and text.  A float is meant in its normal form, the one
    [binary_normalize] gives, and a dict with each key once. *)
Inductive value : Type :=
| VNone
| VBool (b : bool)
| VInt (z : Z)
| VFloat (f : float)
| VStr (s : string)
| VList (l : list value)
| VDict (d : list (string * value)).

(** ** Exceptions and results *)

Inductive exn_kind : Type :=
| ValueError | TypeError | OverflowError | ZeroDivisionError
| NameError | AttributeError | SyntaxError
| OtherError (name : string).

(** The text of an exception: the pieces of an f-string, a formatted value
    kept as the value. *)
Inductive msg : Type :=
| Text (s : string)
| Shown (v : value)
| Join (m1 m2 : msg).

Record exn : Type := Exn { kind : exn_kind; message : msg }.

Inductive result (A : Type) : Type :=
| Ok (a : A)
| Raise (e : exn).
Arguments Ok {A} a.
Arguments Raise {A} e.

Definition bind {A B} (x : result A) (f : A -> result B) : result B :=
  match x with
  | Ok a => f a
  | Raise e => Raise e
  end.

Notation "x <- c1 ;; c2" := (bind c1 (fun x => c2))
  (at level 61, c1 at next level, right associativity).

Definition is_ValueError (e : exn) : bool :=
  match kind e with ValueError => true | _ => false end.

Definition is_ValueError_or_TypeError (e : exn) : bool :=
  match kind e with ValueError | TypeError => true | _ => false end.

(** ** Floats *)

Definition prec : Z := 53.
Definition emax : Z := 1024.

Definition fzero : float := S754_zero false.
Definition fone : float := binary_normalize prec emax 1 0 false.
Definition finf (neg : bool) : float := S754_infinity neg.

Definition is_inf (f : float) : bool :=
  match f with S754_infinity _ => true | _ => false end.

(** The binary64 nearest to the integer [z], ties to even. *)
Definition round_Z (z : Z) : float := binary_normalize prec emax z 0 false.

(** The binary64 nearest to [n / d], ties to even, for [0 <= n] and [0 < d],
    with the sign [neg].  The quotient is taken with 64 bits or more and a
    sticky bit, which rounds as the exact value does. *)
Definition round_fraction (neg : bool) (n d : Z) : float :=
  if (n =? 0)%Z then S754_zero neg else
  let sh := (64 + Z.log2 d - Z.log2 n)%Z in
  let num := if (0 <=? sh)%Z then (n * 2 ^ sh)%Z else n in
  let den := if (0 <=? sh)%Z then d else (d * 2 ^ (- sh))%Z in
  let q := (num / den)%Z in
  let sticky := if (num mod den =? 0)%Z then 0%Z else 1%Z in
  let m := (2 * q + sticky)%Z in
  binary_normalize prec emax (if neg then (- m)%Z else m) (- sh - 1) false.

(** The binary64 nearest to [m * 10 ^ e], for [0 <= m]. *)
Definition round_decimal (neg : bool) (m e : Z) : float :=
  if (0 <=? e)%Z
  then round_fraction neg (m * 10 ^ e) 1
  else round_fraction neg m (10 ^ (- e)).

(** [float(z)] for an [int]. *)
Definition float_of_int (z : Z) : result float :=
  let f := round_Z z in
  if is_inf f
  then Raise (Exn OverflowError (Text "int too large to convert to float"))
  else Ok f.

Definition float_of_bool (b : bool) : float := if b then fone else fzero.

(** [x < y] and the like on floats; a comparison with NaN is false. *)
Definition float_lt (x y : float) : bool := SFltb x y.
Definition float_le (x y : float) : bool := SFleb x y.
Definition float_gt (x y : float) : bool := SFltb y x.
Definition float_ge (x y : float) : bool := SFleb y x.
Definition float_eq (x y : float) : bool := SFeqb x y.

(** Whether the float [f] and the integer [z] are the same number. *)
Definition float_eq_int (f : float) (z : Z) : bool :=
  match f with
  | S754_zero _ => (z =? 0)%Z
  | S754_finite s m e =>
      let sm := if s then Z.neg m else Z.pos m in
      if (0 <=? e)%Z then (z =? sm * 2 ^ e)%Z else (z * 2 ^ (- e) =? sm)%Z
  | _ => false
  end.

(** [floor(f * scale)] for a finite float. *)
Definition floor_scaled (f : float) (scale : Z) : option Z :=
  match f with
  | S754_zero _ => Some 0%Z
  | S754_finite s m e =>
      let sm := if s then Z.neg m else Z.pos m in
      Some (if (0 <=? e)%Z then (sm * 2 ^ e * scale)%Z
            else (sm * scale / 2 ^ (- e))%Z)
  | _ => None
  end.

(** *** [float(s)] for text *)

(** The white space [float] itself trims. *)
Definition float_space (c : ascii) : bool :=
  in_range 9 13 c || (ord c =? 32)%N || (ord c =? 133)%N || (ord c =? 160)%N.

Fixpoint ltrim (cls : ascii -> bool) (s : string) : string :=
  match s with
  | String c s' => if cls c then ltrim cls s' else s
  | EmptyString => EmptyString
  end.

Fixpoint rtrim (cls : ascii -> bool) (s : string) : string :=
  match s with
  | EmptyString => EmptyString
  | String c s' =>
      match rtrim cls s' with
      | EmptyString => if cls c then EmptyString else String c EmptyString
      | r => String c r
      end
  end.

Definition underscore : ascii := "_"%char.

(** Underscores are dropped; each must stand between two digits. *)
Fixpoint drop_underscores (prev : ascii) (s : string) : option string :=
  match s with
  | EmptyString => if (prev =? underscore)%char then None else Some EmptyString
  | String c s' =>
      if (c =? underscore)%char
      then if is_digit prev then drop_underscores c s' else None
      else if (prev =? underscore)%char && negb (is_digit c) then None
           else option_map (String c) (drop_underscores c s')
  end.

Definition lower (c : ascii) : ascii :=
  if in_range 65 90 c then ascii_of_N (ord c + 32) else c.

Fixpoint lowercase (s : string) : string :=
  match s with
  | EmptyString => EmptyString
  | String c s' => String (lower c) (lowercase s')
  end.

(** The leading digits of [s] as a number, how many there are, and the rest. *)
Fixpoint digits (acc : Z) (n : nat) (s : string) : Z * nat * string :=
  match s with
  | String c s' =>
      if is_digit c
      then digits (10 * acc + Z.of_N (ord c - 48)) (S n) s'
      else (acc, n, s)
  | EmptyString => (acc, n, s)
  end.

Definition sign (s : string) : bool * string :=
  match s with
  | String "-" s' => (true, s')
  | String "+" s' => (false, s')
  | _ => (false, s)
  end.

(** The exponent part, [e] or [E], a sign, digits: its value when [s] is
    one, [0] when [s] is empty. *)
Definition exponent (s : string) : option Z :=
  match s with
  | EmptyString => Some 0%Z
  | String c s' =>
      if (lower c =? "e")%char
      then let '(neg, s'') := sign s' in
           match digits 0 0 s'' with
           | (_, O, _) => None
           | (e, S _, EmptyString) => Some (if neg then (- e)%Z else e)
           | _ => None
           end
      else None
  end.

(** A decimal number: digits, a point and digits, an exponent; a digit at
    least before or after the point. *)
Definition decimal (neg : bool) (s : string) : option float :=
  let '(ip, ni, s1) := digits 0 0 s in
  let '(m, nf, s2) :=
    match s1 with
    | String "." s1' => let '(m, nf, s2) := digits ip 0 s1' in (m, nf, s2)
    | _ => (ip, O, s1)
    end in
  match (ni + nf)%nat with
  | O => None
  | S _ =>
      match exponent s2 with
      | Some e => Some (round_decimal neg m (e - Z.of_nat nf))
      | None => None
      end
  end.

Definition could_not_convert (s : string) : exn :=
  Exn ValueError (Join (Text "could not convert string to float: ") (Shown (VStr s))).

(** [float(s)] for a [str]: surrounding white space is trimmed; then a sign
    and [inf], [infinity] or [nan] in any case, or a decimal number. *)
Definition float_of_str (s : string) : result float :=
  match drop_underscores "000"%char (rtrim float_space (ltrim float_space s)) with
  | None => Raise (could_not_convert s)
  | Some t =>
      let '(neg, u) := sign t in
      let l := lowercase u in
      if (l =? "inf") || (l =? "infinity") then Ok (finf neg)
      else if (l =? "nan") then Ok S754_nan
      else match decimal neg u with
           | Some f => Ok f
           | None => Raise (could_not_convert s)
           end
  end.

(** ** [eval]

    What [eval(source, globals)] can return besides the values above. *)

Inductive object : Type :=
| OValue (v : value)
| OModule (name : string)
| OOpaque (what : string).   (* a function, a tuple, a complex number, ... *)

Definition namespace : Type := list (string * object).

Fixpoint lookup {A} (k : string) (d : list (string * A)) : option A :=
  match d with
  | [] => None
  | (k', a) :: d' => if (k =? k') then Some a else lookup k d'
  end.

(** *** A fragment of Python expressions

    Numbers, names, the constants [True], [False] and [None], attributes of
    the [math] module, unary [+] and [-], the binary operators [+], [-],
    [*], [/], [//], [%] and [**], and parentheses.  [eval_fragment] gives
    what [eval] does on a source of this fragment, and [None] on every other
    source: it says nothing about those. *)

Inductive punct : Type :=
| Plus | Minus | Star | Slash | DSlash | Percent | DStar | LParen | RParen | Dot.

Inductive token : Type :=
| TInt (z : Z)
| TFloat (f : float)
| TName (s : string)
| TPunct (p : punct).

Definition is_name_start (c : ascii) : bool :=
  in_range 65 90 c || in_range 97 122 c || (ord c =? 95)%N.

(** A number at the start of [s]: a decimal integer without a leading zero,
    or a float with a point or an exponent.  No letter, digit or underscore
    may follow it. *)
Definition lex_number (s : string) : option (token * string) :=
  let '(ip, ni, s1) := digits 0 0 s in
  let '(m, nf, s2, pointed) :=
    match s1 with
    | String "." s1' => let '(m, nf, s2) := digits ip 0 s1' in (m, nf, s2, true)
    | _ => (ip, O, s1, false)
    end in
  match (ni + nf)%nat with
  | O => None
  | S _ =>
      let '(e, s3, exped) :=
        match s2 with
        | String c s2' =>
            if (lower c =? "e")%char
            then let '(neg, s2'') := sign s2' in
                 let '(e, ne, s3) := digits 0 0 s2'' in
                 ((if neg then - e else e)%Z, (if (ne =? 0)%nat then s2 else s3), true)
            else (0%Z, s2, false)
        | EmptyString => (0%Z, s2, false)
        end in
      if starts_with_cls is_ascii_word s3 then None
      else if pointed || exped
           then Some (TFloat (round_decimal false m (e - Z.of_nat nf)), s3)
           else if starts_with_cls (fun c => (ord c =? 48)%N) s && negb (ip =? 0)%Z
                then None
                else Some (TInt ip, s3)
  end.

Fixpoint lex (fuel : nat) (s : string) : option (list token) :=
  match fuel with
  | O => None
  | S fuel' =>
      let cons t r := option_map (cons t) (lex fuel' r) in
      match s with
      | EmptyString => Some []
      | String c s' =>
          if (ord c =? 32)%N || (ord c =? 9)%N then lex fuel' s'
          else if is_digit c || ((c =? ".")%char && starts_with_cls is_digit s')
          then match lex_number s with
               | Some (t, r) => cons t r
               | None => None
               end
          else if is_name_start c
          then let '(n, r) := span is_ascii_word s in
               if starts_with_cls (fun c => (128 <=? ord c)%N) r then None
               else cons (TName n) r
          else match c, s' with
               | "*"%char, String "*" r => cons (TPunct DStar) r
               | "/"%char, String "/" r => cons (TPunct DSlash) r
               | "+"%char, _ => cons (TPunct Plus) s'
               | "-"%char, _ => cons (TPunct Minus) s'
               | "*"%char, _ => cons (TPunct Star) s'
               | "/"%char, _ => cons (TPunct Slash) s'
               | "%"%char, _ => cons (TPunct Percent) s'
               | "("%char, _ => cons (TPunct LParen) s'
               | ")"%char, _ => cons (TPunct RParen) s'
               | "."%char, _ => cons (TPunct Dot) s'
               | _, _ => None
               end
      end
  end.

Inductive binop : Type := Add | Sub | Mul | Div | FloorDiv | Mod | Pow.
Inductive unop : Type := UPlus | UMinus.

Inductive expr : Type :=
| EConst (v : value)
| EName (n : string)
| EAttr (e : expr) (a : string)
| EUn (op : unop) (e : expr)
| EBin (op : binop) (e1 e2 : expr).

(** The reserved words.  [True], [False] and [None] are constants; a source
    that uses another one, or [__debug__], is outside the fragment. *)
Definition keywords : list string :=
  ["and"; "as"; "assert"; "async"; "await"; "break"; "class"; "continue";
   "def"; "del"; "elif"; "else"; "except"; "finally"; "for"; "from";
   "global"; "if"; "import"; "in"; "is"; "lambda"; "nonlocal"; "not"; "or";
   "pass"; "raise"; "return"; "try"; "while"; "with"; "yield"; "__debug__"].

Definition atom_of_name (n : string) : option expr :=
  if (n =? "True") then Some (EConst (VBool true))
  else if (n =? "False") then Some (EConst (VBool false))
  else if (n =? "None") then Some (EConst VNone)
  else if existsb (String.eqb n) keywords then None
  else Some (EName n).

Definition additive (p : punct) : option binop :=
  match p with Plus => Some Add | Minus => Some Sub | _ => None end.

Definition multiplicative (p : punct) : option binop :=
  match p with
  | Star => Some Mul | Slash => Some Div
  | DSlash => Some FloorDiv | Percent => Some Mod
  | _ => None
  end.

(** Attribute references after a primary: [.name], any number of them. *)
Fixpoint p_trailers (e : expr) (ts : list token) {struct ts}
  : expr * list token :=
  match ts with
  | TPunct Dot :: TName a :: r => p_trailers (EAttr e a) r
  | _ => (e, ts)
  end.

(** No reserved word may be used as an attribute name. *)
Fixpoint attrs_ok (e : expr) : bool :=
  match e with
  | EAttr e' a =>
      negb (existsb (String.eqb a) ("True" :: "False" :: "None" :: keywords))
      && attrs_ok e'
  | EUn _ e' => attrs_ok e'
  | EBin _ e1 e2 => attrs_ok e1 && attrs_ok e2
  | _ => true
  end.

(** Recursive descent along Python's grammar:
    sum, term, factor, power, primary, atom. *)
Fixpoint p_sum (fuel : nat) (ts : list token) : option (expr * list token) :=
  match fuel with
  | O => None
  | S n =>
      match p_term n ts with
      | Some (e, r) => p_sum_rest n e r
      | None => None
      end
  end
with p_sum_rest (fuel : nat) (lhs : expr) (ts : list token)
  : option (expr * list token) :=
  match fuel with
  | O => None
  | S n =>
      match ts with
      | TPunct p :: r =>
          match additive p with
          | Some op =>
              match p_term n r with
              | Some (e, r') => p_sum_rest n (EBin op lhs e) r'
              | None => None
              end
          | None => Some (lhs, ts)
          end
      | _ => Some (lhs, ts)
      end
  end
with p_term (fuel : nat) (ts : list token) : option (expr * list token) :=
  match fuel with
  | O => None
  | S n =>
      match p_factor n ts with
      | Some (e, r) => p_term_rest n e r
      | None => None
      end
  end
with p_term_rest (fuel : nat) (lhs : expr) (ts : list token)
  : option (expr * list token) :=
  match fuel with
  | O => None
  | S n =>
      match ts with
      | TPunct p :: r =>
          match multiplicative p with
          | Some op =>
              match p_factor n r with
              | Some (e, r') => p_term_rest n (EBin op lhs e) r'
              | None => None
              end
          | None => Some (lhs, ts)
          end
      | _ => Some (lhs, ts)
      end
  end
with p_factor (fuel : nat) (ts : list token) : option (expr * list token) :=
  match fuel with
  | O => None
  | S n =>
      match ts with
      | TPunct Plus :: r =>
          option_map (fun '(e, r') => (EUn UPlus e, r')) (p_factor n r)
      | TPunct Minus :: r =>
          option_map (fun '(e, r') => (EUn UMinus e, r')) (p_factor n r)
      | _ =>
          match p_primary n ts with
          | Some (b, TPunct DStar :: r) =>
              option_map (fun '(e, r') => (EBin Pow b e, r')) (p_factor n r)
          | other => other
          end
      end
  end
with p_primary (fuel : nat) (ts : list token) : option (expr * list token) :=
  match fuel with
  | O => None
  | S n =>
      match ts with
      | TInt z :: r => Some (p_trailers (EConst (VInt z)) r)
      | TFloat f :: r => Some (p_trailers (EConst (VFloat f)) r)
      | TName x :: r =>
          match atom_of_name x with
          | Some e => Some (p_trailers e r)
          | None => None
          end
      | TPunct LParen :: r =>
          match p_sum n r with
          | Some (e, TPunct RParen :: r') => Some (p_trailers e r')
          | _ => None
          end
      | _ => None
      end
  end.

(** The longest source the fragment takes.  Within it no limit of the
    interpreter is near: on the nesting of parentheses, on the digits of an
    integer literal, on the depth of recursion. *)
Definition longest_source : nat := 100.

(** The expression a source of the fragment denotes. *)
Definition parse_expr (src : string) : option expr :=
  if (longest_source <? length src)%nat then None else
  match lex (S (length src)) src with
  | Some ts =>
      match p_sum (8 * List.length ts + 8) ts with
      | Some (e, []) => if attrs_ok e then Some e else None
      | _ => None
      end
  | None => None
  end.

(** *** Evaluation *)

(** The constants of the [math] module. *)
Definition math_pi : float := S754_finite false 7074237752028440 (-51).
Definition math_e : float := S754_finite false 6121026514868073 (-51).
Definition math_tau : float := S754_finite false 7074237752028440 (-50).

Definition math_constant (a : string) : option float :=
  if (a =? "pi") then Some math_pi
  else if (a =? "e") then Some math_e
  else if (a =? "tau") then Some math_tau
  else if (a =? "inf") then Some (finf false)
  else if (a =? "nan") then Some S754_nan
  else None.

(** A number as the arithmetic sees it: a [bool] is the [int] 0 or 1. *)
Definition as_number (o : object) : option (Z + float) :=
  match o with
  | OValue (VBool b) => Some (inl (Z.b2z b))
  | OValue (VInt z) => Some (inl z)
  | OValue (VFloat f) => Some (inr f)
  | _ => None
  end.

Definition raise {A} (k : exn_kind) (text : string) : result A :=
  Raise (Exn k (Text text)).

(** [x / y] on two [int]s: the quotient rounded once. *)
Definition int_true_divide (x y : Z) : result value :=
  if (y =? 0)%Z then raise ZeroDivisionError "division by zero" else
  let f := round_fraction (xorb (x <? 0)%Z (y <? 0)%Z) (Z.abs x) (Z.abs y) in
  if is_inf f
  then raise OverflowError "integer division result too large for a float"
  else Ok (VFloat f).

(** The most bits the fragment lets a power have: a larger one is outside
    it, as is a negative exponent. *)
Definition largest_power : Z := 4096.

Definition int_binop (op : binop) (x y : Z) : option (result value) :=
  match op with
  | Add => Some (Ok (VInt (x + y)))
  | Sub => Some (Ok (VInt (x - y)))
  | Mul => Some (Ok (VInt (x * y)))
  | Div => Some (int_true_divide x y)
  | FloorDiv =>
      Some (if (y =? 0)%Z
            then raise ZeroDivisionError "integer division or modulo by zero"
            else Ok (VInt (x / y)))
  | Mod =>
      Some (if (y =? 0)%Z
            then raise ZeroDivisionError "integer division or modulo by zero"
            else Ok (VInt (x mod y)))
  | Pow =>
      if (0 <=? y)%Z && (y * (Z.log2 (Z.abs x) + 1) <=? largest_power)%Z
      then Some (Ok (VInt (x ^ y)))
      else None
  end.

Definition is_fzero (f : float) : bool :=
  match f with S754_zero _ => true | _ => false end.

Definition float_binop (op : binop) (x y : float) : option (result value) :=
  match op with
  | Add => Some (Ok (VFloat (SFadd prec emax x y)))
  | Sub => Some (Ok (VFloat (SFsub prec emax x y)))
  | Mul => Some (Ok (VFloat (SFmul prec emax x y)))
  | Div =>
      Some (if is_fzero y
            then raise ZeroDivisionError "float division by zero"
            else Ok (VFloat (SFdiv prec emax x y)))
  | _ => None
  end.

Definition to_double (n : Z + float) : result float :=
  match n with
  | inl z => float_of_int z
  | inr f => Ok f
  end.

Definition number_binop (op : binop) (a b : Z + float) : option (result value) :=
  match a, b with
  | inl x, inl y => int_binop op x y
  | _, _ =>
      match to_double a, to_double b with
      | Ok x, Ok y => float_binop op x y
      | Raise e, _ => Some (Raise e)
      | _, Raise e => Some (Raise e)
      end
  end.

Definition number_unop (op : unop) (a : Z + float) : value :=
  match op, a with
  | UPlus, inl z => VInt z
  | UPlus, inr f => VFloat f
  | UMinus, inl z => VInt (- z)
  | UMinus, inr f => VFloat (SFopp f)
  end.

Definition of_value (r : result value) : result object :=
  match r with Ok v => Ok (OValue v) | Raise e => Raise e end.

Definition name_error (n : string) : exn :=
  Exn NameError (Join (Text "name ") (Join (Shown (VStr n)) (Text " is not defined"))).

(** The value of an expression in the global namespace [g]; [None] when the
    expression leaves the fragment (an attribute of something other than a
    constant of [math], arithmetic on something other than numbers, a
    negative, float or large power, [//] and [%] on floats). *)
Fixpoint eval_expr (g : namespace) (e : expr) : option (result object) :=
  match e with
  | EConst v => Some (Ok (OValue v))
  | EName n =>
      match lookup n g with
      | Some o => Some (Ok o)
      | None => Some (Raise (name_error n))
      end
  | EAttr e' a =>
      match eval_expr g e' with
      | Some (Ok (OModule "math")) =>
          option_map (fun f => Ok (OValue (VFloat f))) (math_constant a)
      | Some (Raise x) => Some (Raise x)
      | _ => None
      end
  | EUn op e' =>
      match eval_expr g e' with
      | Some (Ok o) =>
          option_map (fun a => Ok (OValue (number_unop op a))) (as_number o)
      | other => other
      end
  | EBin op e1 e2 =>
      match eval_expr g e1 with
      | Some (Ok o1) =>
          match eval_expr g e2 with
          | Some (Ok o2) =>
              match as_number o1, as_number o2 with
              | Some a, Some b => option_map of_value (number_binop op a b)
              | _, _ => None
              end
          | other => other
          end
      | other => other
      end
  end.

(** [eval(source, g)] on the fragment. *)
Definition eval_fragment (source : string) (g : namespace) : option (result object) :=
  match parse_expr source with
  | Some e => eval_expr g e
  | None => None
  end.

(** Two outcomes are the same: the same object, or exceptions of one class. *)
Definition same_outcome (r r' : result object) : Prop :=
  match r, r' with
  | Ok o, Ok o' => o = o'
  | Raise e, Raise e' => kind e = kind e'
  | _, _ => False
  end.

(** An evaluator [ev] is one of Python's as far as the fragment goes. *)
Definition extends_fragment (ev : string -> namespace -> result object) : Prop :=
  forall source g r, eval_fragment source g = Some r -> same_outcome r (ev source g).

(** The fragment, made total: a source outside it is answered with an
    exception of a kind of its own. *)
Definition eval_total (source : string) (g : namespace) : result object :=
  match eval_fragment source g with
  | Some r => r
  | None => raise (OtherError "outside the fragment") source
  end.

(** ** The parser *)

(** The line feed and the two quote characters, as one-character strings. *)
Definition newline : string := String "010"%char EmptyString.
Definition dquote : string := String "034"%char EmptyString.
Definition squote : string := String "039"%char EmptyString.

(** [parse_value] *)
Definition parse_value (value_string : string) : string :=
  let value_string := strip value_string in
  if (startswith value_string dquote && endswith value_string dquote)
     || (startswith value_string squote && endswith value_string squote)
  then slice value_string 1 (-1)
  else value_string.

(** The test [parse_value] makes on the trimmed text. *)
Definition quoted (s : string) : bool :=
  (startswith s dquote && endswith s dquote)
  || (startswith s squote && endswith s squote).

(** [parse_query_string].  No statement of it can raise, so the result is the
    returned tuple or [None]. *)
Definition parse_query_string (string_to_query : value)
  : option (string * string * string) :=
  match string_to_query with
  | VStr s =>
      if (s =? "") then None else
      let s := strip s in
      if (s =? "") then None else
      match re_match pattern s with
      | None => None
      | Some m =>
          let field_name := group 1 m in
          let operator := group 2 m in
          let value_string := strip (group 3 m) in
          if (field_name =? "") || (operator =? "") || (value_string =? "")
          then None
          else Some (field_name, operator, parse_value value_string)
      end
  | _ => None
  end.

(** ** Numeric coercion *)

Definition isinstance_int_float (v : value) : bool :=
  match v with
  | VBool _ | VInt _ | VFloat _ => true
  | _ => false
  end.

(** [float(v)] for a [bool], an [int] or a [float]. *)
Definition float_of_number (v : value) : result float :=
  match v with
  | VBool b => Ok (float_of_bool b)
  | VInt z => float_of_int z
  | VFloat f => Ok f
  | _ => raise TypeError "float() argument must be a string or a real number"
  end.

(** [{'math': math, '__builtins__': {}}] *)
Definition safe_namespace : namespace :=
  [("math", OModule "math"); ("__builtins__", OValue (VDict []))].

Definition cannot_parse (v : value) : exn :=
  Exn ValueError (Join (Text "Cannot parse as numeric value: ") (Shown v)).

Section Coercion.
(** Python's [eval]. *)
Variable py_eval : string -> namespace -> result object.

(** The body of the inner [try]: [eval], then the [isinstance] test. *)
Definition eval_numeric (s : string) : result float :=
  r <- py_eval s safe_namespace ;;
  match r with
  | OValue v =>
      if isinstance_int_float v then float_of_number v
      else Raise (Exn ValueError (Text ""))
  | _ => Raise (Exn ValueError (Text ""))
  end.

(** [parse_numeric_value] *)
Definition parse_numeric_value (value : value) : result float :=
  if isinstance_int_float value then float_of_number value else
  match value with
  | VStr s =>
      let s := strip s in
      match float_of_str s with
      | Ok f => Ok f
      | Raise e =>
          if is_ValueError e then
            match eval_numeric s with
            | Ok f => Ok f
            | Raise _ => Raise (cannot_parse (VStr s))   (* bare except *)
            end
          else Raise e
      end
  | _ => Raise (cannot_parse value)
  end.

(** [is_numeric_value] *)
Definition is_numeric_value (value : value) : result bool :=
  match parse_numeric_value value with
  | Ok _ => Ok true
  | Raise e => if is_ValueError_or_TypeError e then Ok false else Raise e
  end.
End Coercion.

(** ** Queries *)

(** [a == b] on values. *)
Fixpoint py_eq (a b : value) : bool :=
  match a, b with
  | VNone, VNone => true
  | VStr s, VStr t => (s =? t)
  | VBool x, VBool y => Bool.eqb x y
  | VBool x, VInt y => (Z.b2z x =? y)%Z
  | VInt x, VBool y => (x =? Z.b2z y)%Z
  | VInt x, VInt y => (x =? y)%Z
  | VFloat x, VFloat y => float_eq x y
  | VFloat x, VInt y => float_eq_int x y
  | VInt x, VFloat y => float_eq_int y x
  | VFloat x, VBool y => float_eq_int x (Z.b2z y)
  | VBool x, VFloat y => float_eq_int y (Z.b2z x)
  | VList l, VList m =>
      (fix all2 (l m : list value) : bool :=
         match l, m with
         | [], [] => true
         | x :: l', y :: m' => py_eq x y && all2 l' m'
         | _, _ => false
         end) l m
  | VDict d, VDict d' =>
      (List.length d =? List.length d')%nat
      && (fix all (d : list (string * value)) : bool :=
            match d with
            | [] => true
            | (k, v) :: r =>
                match lookup k d' with
                | Some v' => py_eq v v'
                | None => false
                end && all r
            end) d
  | _, _ => false
  end.

(** A query condition on one field: what [Query()[field]] followed by
    [test], [==] or [!=] gives.  Run on a document, it tests the value of
    the field, and is false when the document has no such field. *)
Record query : Type := Query {
  path : string;
  test : value -> result bool
}.

Definition document : Type := list (string * value).

Definition run (q : query) (doc : document) : result bool :=
  match lookup (path q) doc with
  | Some v => test q v
  | None => Ok false
  end.

Definition is_ordering (operator : string) : bool :=
  existsb (String.eqb operator) [">"; ">="; "<"; "<="].

Definition numeric_operators_require : string :=
  "Numeric comparison operators (>, >=, <, <=) require numeric values. ".

Section Builder.
Variable py_eval : string -> namespace -> result object.

(** [lambda x: is_numeric_value(x) and cmp(parse_numeric_value(x), numeric_value)] *)
Definition numeric_test (cmp : float -> float -> bool) (numeric_value : float)
  : value -> result bool :=
  fun x =>
    b <- is_numeric_value py_eval x ;;
    if b
    then f <- parse_numeric_value py_eval x ;; Ok (cmp f numeric_value)
    else Ok false.

(** The part of [build_tinydb_query] on [==] and [!=], which is reached
    when the operator is none of the ordering operators. *)
Definition build_equality (field : (value -> result bool) -> query)
           (operator : string) (value : value) : result query :=
  if (operator =? "==") then Ok (field (fun x => Ok (py_eq x value)))
  else if (operator =? "!=") then Ok (field (fun x => Ok (negb (py_eq x value))))
  else Raise (Exn ValueError
                (Join (Text "Unsupported operator: ") (Shown (VStr operator)))).

(** [build_tinydb_query] *)
Definition build_tinydb_query (field_name operator : string) (value : value)
  : result query :=
  let field := Query field_name in
  if is_ordering operator then
    match parse_numeric_value py_eval value with
    | Raise e =>
        if is_ValueError e
        then Raise (Exn ValueError
                      (Join (Text numeric_operators_require) (message e)))
        else Raise e
    | Ok numeric_value =>
        if (operator =? ">") then Ok (field (numeric_test float_gt numeric_value))
        else if (operator =? ">=") then Ok (field (numeric_test float_ge numeric_value))
        else if (operator =? "<") then Ok (field (numeric_test float_lt numeric_value))
        else if (operator =? "<=") then Ok (field (numeric_test float_le numeric_value))
        else build_equality field operator value
    end
  else build_equality field operator value.

Definition invalid_query_format (s : string) : exn :=
  Exn ValueError
    (Join (Text "Invalid query format: '")
       (Join (Shown (VStr s))
          (Text "'. Expected format: 'field == value', 'field != value', 'field > value', 'field < value', 'field >= value', or 'field <= value'. Field names must be alphanumeric (letters, numbers, underscore)."))).

(** [parse_and_build_query] *)
Definition parse_and_build_query (string_to_query : value) : result query :=
  match string_to_query with
  | VStr s =>
      if (s =? "")
      then raise ValueError "Query string cannot be empty or non-string"
      else
        let s := strip s in
        if (s =? "")
        then raise ValueError "Query string cannot be empty or whitespace only"
        else
          match parse_query_string (VStr s) with
          | None => Raise (invalid_query_format s)
          | Some (field_name, operator, value) =>
              build_tinydb_query field_name operator (VStr value)
          end
  | _ => raise ValueError "Query string cannot be empty or non-string"
  end.
End Builder.

(** ** Exception classes

    An [except] clause tests the class of the exception, and a class
    stands for its subclasses too.  The classes of the interpreter, each
    with the classes it derives from, up to [BaseException], which is left
    out. *)

Definition builtin_exceptions : list (string * list string) :=
  [
   ("ArithmeticError", ["Exception"]);
   ("AssertionError", ["Exception"]);
   ("AttributeError", ["Exception"]);
   ("BaseExceptionGroup", []);
   ("BlockingIOError", ["OSError"; "Exception"]);
   ("BrokenPipeError", ["ConnectionError"; "OSError"; "Exception"]);
   ("BufferError", ["Exception"]);
   ("BytesWarning", ["Warning"; "Exception"]);
   ("ChildProcessError", ["OSError"; "Exception"]);
   ("ConnectionAbortedError", ["ConnectionError"; "OSError"; "Exception"]);
   ("ConnectionError", ["OSError"; "Exception"]);
   ("ConnectionRefusedError", ["ConnectionError"; "OSError"; "Exception"]);
   ("ConnectionResetError", ["ConnectionError"; "OSError"; "Exception"]);
   ("DeprecationWarning", ["Warning"; "Exception"]);
   ("EOFError", ["Exception"]);
   ("EncodingWarning", ["Warning"; "Exception"]);
   ("Exception", []);
   ("ExceptionGroup", ["BaseExceptionGroup"; "Exception"]);
   ("FileExistsError", ["OSError"; "Exception"]);
   ("FileNotFoundError", ["OSError"; "Exception"]);
   ("FloatingPointError", ["ArithmeticError"; "Exception"]);
   ("FutureWarning", ["Warning"; "Exception"]);
   ("GeneratorExit", []);
   ("ImportError", ["Exception"]);
   ("ImportWarning", ["Warning"; "Exception"]);
   ("IndentationError", ["SyntaxError"; "Exception"]);
   ("IndexError", ["LookupError"; "Exception"]);
   ("InterruptedError", ["OSError"; "Exception"]);
   ("IsADirectoryError", ["OSError"; "Exception"]);
   ("KeyError", ["LookupError"; "Exception"]);
   ("KeyboardInterrupt", []);
   ("LookupError", ["Exception"]);
   ("MemoryError", ["Exception"]);
   ("ModuleNotFoundError", ["ImportError"; "Exception"]);
   ("NameError", ["Exception"]);
   ("NotADirectoryError", ["OSError"; "Exception"]);
   ("NotImplementedError", ["RuntimeError"; "Exception"]);
   ("OSError", ["Exception"]);
   ("OverflowError", ["ArithmeticError"; "Exception"]);
   ("PendingDeprecationWarning", ["Warning"; "Exception"]);
   ("PermissionError", ["OSError"; "Exception"]);
   ("ProcessLookupError", ["OSError"; "Exception"]);
   ("RecursionError", ["RuntimeError"; "Exception"]);
   ("ReferenceError", ["Exception"]);
   ("ResourceWarning", ["Warning"; "Exception"]);
   ("RuntimeError", ["Exception"]);
   ("RuntimeWarning", ["Warning"; "Exception"]);
   ("StopAsyncIteration", ["Exception"]);
   ("StopIteration", ["Exception"]);
   ("SyntaxError", ["Exception"]);
   ("SyntaxWarning", ["Warning"; "Exception"]);
   ("SystemError", ["Exception"]);
   ("SystemExit", []);
   ("TabError", ["IndentationError"; "SyntaxError"; "Exception"]);
   ("TimeoutError", ["OSError"; "Exception"]);
   ("TypeError", ["Exception"]);
   ("UnboundLocalError", ["NameError"; "Exception"]);
   ("UnicodeDecodeError", ["UnicodeError"; "ValueError"; "Exception"]);
   ("UnicodeEncodeError", ["UnicodeError"; "ValueError"; "Exception"]);
   ("UnicodeError", ["ValueError"; "Exception"]);
   ("UnicodeTranslateError", ["UnicodeError"; "ValueError"; "Exception"]);
   ("UnicodeWarning", ["Warning"; "Exception"]);
   ("UserWarning", ["Warning"; "Exception"]);
   ("ValueError", ["Exception"]);
   ("Warning", ["Exception"]);
   ("ZeroDivisionError", ["ArithmeticError"; "Exception"])
  ].

(** The name of the class of an exception. *)
Definition class_name (k : exn_kind) : string :=
  match k with
  | ValueError => "ValueError"
  | TypeError => "TypeError"
  | OverflowError => "OverflowError"
  | ZeroDivisionError => "ZeroDivisionError"
  | NameError => "NameError"
  | AttributeError => "AttributeError"
  | SyntaxError => "SyntaxError"
  | OtherError name => name
  end.

(** The classes a class derives from; [other_bases] gives them for a class
    that is not one of the interpreter's. *)
Definition bases (other_bases : string -> list string) (name : string)
  : list string :=
  match lookup name builtin_exceptions with
  | Some b => b
  | None => other_bases name
  end.

(** [isinstance(e, cls)] *)
Definition isinstance (other_bases : string -> list string) (e : exn)
           (cls : string) : bool :=
  let name := class_name (kind e) in
  (name =? cls) || existsb (String.eqb cls) (bases other_bases name).

(** ** The command

    [execute_query_command] works on the outside: it loads the store,
    reports errors, prints documents.  The outside is a state [world], and a
    call that acts on it takes the world and returns its result, or the
    exception it raises, with the world it leaves. *)

Definition io (world A : Type) : Type := world -> result A * world.

Definition io_ret {world A} (a : A) : io world A := fun w => (Ok a, w).

Definition io_raise {world A} (e : exn) : io world A := fun w => (Raise e, w).

Definition io_bind {world A B} (m : io world A) (k : A -> io world B)
  : io world B :=
  fun w =>
    match m w with
    | (Ok a, w') => k a w'
    | (Raise e, w') => (Raise e, w')
    end.

(** [try: m except C as e: handler(e)], with [caught] the test of the
    class [C]: an exception it does not hold of goes on. *)
Definition io_try {world A} (m : io world A) (caught : exn -> bool)
           (handler : exn -> io world A) : io world A :=
  fun w =>
    match m w with
    | (Raise e, w') => if caught e then handler e w' else (Raise e, w')
    | r => r
    end.

Notation "m >> k" := (io_bind m (fun _ => k))
  (at level 62, right associativity).

(** [db.search(cond)]: the documents of the table the condition holds of, in
    their order; an exception of the condition comes out of the search. *)
Fixpoint search (docs : list document) (cond : query) : result (list document) :=
  match docs with
  | [] => Ok []
  | doc :: docs' =>
      b <- run cond doc ;;
      matching <- search docs' cond ;;
      Ok (if b then doc :: matching else matching)
  end.

(** Whether the condition holds of the document and does not raise. *)
Definition holds (cond : query) (doc : document) : bool :=
  match run cond doc with
  | Ok true => true
  | _ => false
  end.

(** The test of [except (FileNotFoundError, PermissionError, ValueError)]. *)
Definition caught_on_load (other_bases : string -> list string) (e : exn) : bool :=
  isinstance other_bases e "FileNotFoundError"
  || isinstance other_bases e "PermissionError"
  || isinstance other_bases e "ValueError".

Section Command.
Variable py_eval : string -> namespace -> result object.

(** The classes of the exceptions the collaborators raise that are not the
    interpreter's own. *)
Variable other_bases : string -> list string.

(** The collaborators, which live in other modules: [handle_error],
    [load_database] with the documents of the store it opens and its
    [close], and [print_documents]. *)
Variable world : Type.
Variable database : Type.
Variable handle_error : msg -> io world unit.
Variable load_database : string -> io world database.
Variable documents : database -> list document.
Variable close : database -> io world unit.
Variable print_documents : list document -> bool -> io world unit.

(** The search and what follows it. *)
Definition search_and_print (db : database) (query_condition : query)
           (pretty : bool) : io world Z :=
  match search (documents db) query_condition with
  | Raise e =>
      if isinstance other_bases e "Exception"
      then handle_error (Join (Text "Failed to search database: ") (message e))
           >> close db >> io_ret 1%Z
      else io_raise e
  | Ok matching_documents =>
      print_documents matching_documents pretty >> close db >> io_ret 0%Z
  end.

(** The body of the outer [try]. *)
Definition query_command_body (file_path : string) (string_to_query : value)
           (pretty : bool) : io world Z :=
  match parse_and_build_query py_eval string_to_query with
  | Raise e =>
      if isinstance other_bases e "ValueError"
      then handle_error (message e) >> io_ret 1%Z
      else io_raise e
  | Ok query_condition =>
      fun w =>
        match load_database file_path w with
        | (Raise e, w') =>
            if caught_on_load other_bases e then (Ok 1%Z, w') else (Raise e, w')
        | (Ok db, w') => search_and_print db query_condition pretty w'
        end
  end.

(** [execute_query_command] *)
Definition execute_query_command (file_path : string) (string_to_query : value)
           (pretty : bool) : io world Z :=
  io_try (query_command_body file_path string_to_query pretty)
         (fun e => isinstance other_bases e "Exception")
         (fun e =>
            handle_error
              (Join (Text "Unexpected error while querying documents: ")
                    (message e))
            >> io_ret 1%Z).
End Command.

(** *** A world that records

    What was reported, printed and closed, in order; stores are kept by
    path. *)

Inductive event : Type :=
| Reported (m : msg)
| Printed (docs : list document) (pretty : bool)
| Closed (docs : list document).

Definition recorded : Type := list event.

Definition record (e : event) : io recorded unit :=
  fun w => (Ok tt, (w ++ [e])%list).

Definition open_store (stores : list (string * list document)) (file_path : string)
  : io recorded (list document) :=
  fun w =>
    match lookup file_path stores with
    | Some docs => (Ok docs, w)
    | None => (Raise (Exn (OtherError "FileNotFoundError") (Text file_path)), w)
    end.

(** The command in the recording world, with the fragment for [eval] and
    no class but the interpreter's. *)
Definition recorded_command (stores : list (string * list document))
           (file_path : string) (string_to_query : value) (pretty : bool)
  : io recorded Z :=
  execute_query_command eval_total (fun _ => []) recorded (list document)
    (fun m => record (Reported m)) (open_store stores) (fun db => db)
    (fun db => record (Closed db)) (fun docs pretty => record (Printed docs pretty))
    file_path string_to_query pretty.

(** A store of two documents, and one with an [int] beyond the floats. *)
Definition two_documents : list (string * list document) :=
  [("db.json", [[("name", VStr "A"); ("age", VInt 20)];
                [("name", VStr "B"); ("age", VInt 35)]])].

Definition huge_document : list (string * list document) :=
  [("db.json", [[("name", VStr "C"); ("age", VInt (2 ^ 1024))]])].

(** * Properties *)

(** ** Strings *)

Lemma app_assoc (a b c : string) : (a ++ b) ++ c = a ++ (b ++ c).
Proof. induction a; simpl; congruence. Qed.

Lemma app_empty_r (a : string) : a ++ "" = a.
Proof. induction a; simpl; congruence. Qed.

Lemma length_app (a b : string) : length (a ++ b) = (length a + length b)%nat.
Proof. induction a; simpl; congruence. Qed.

Lemma take_app (a b : string) : take (length a) (a ++ b) = a.
Proof. unfold take. induction a; simpl; [destruct b; reflexivity | congruence]. Qed.

Lemma drop_app (a b : string) : drop (length a) (a ++ b) = b.
Proof. induction a; simpl; auto. Qed.

Lemma prefix_app (a b : string) : prefix a (a ++ b) = true.
Proof.
  induction a as [|c a IH]; simpl.
  - destruct b; reflexivity.
  - destruct (ascii_dec c c); [exact IH | congruence].
Qed.

Lemma span_app cls (a b : string) :
  all cls a = true -> starts_with_cls cls b = false -> span cls (a ++ b) = (a, b).
Proof.
  intros Ha Hb. induction a as [|c a IH]; simpl in *.
  - destruct b as [|c b]; simpl in *; [reflexivity | now rewrite Hb].
  - apply andb_true_iff in Ha as [Hc Ha]. now rewrite Hc, IH.
Qed.

Lemma span_spec cls (s : string) :
  let '(a, b) := span cls s in
  s = a ++ b /\ all cls a = true /\ starts_with_cls cls b = false.
Proof.
  induction s as [|c s IH]; simpl; [auto |].
  destruct (cls c) eqn:Hc.
  - destruct (span cls s) as [a b]. destruct IH as (-> & Ha & Hb).
    simpl. rewrite Hc. auto.
  - simpl. rewrite Hc. auto.
Qed.

(** ** The matcher *)

(** A greedy repetition whose continuation cannot start inside the run
    takes the whole run. *)
Lemma rep_greedy_skip {A} cls (k : nat -> string -> option A) :
  (forall p c s', cls c = true -> k p (String c s') = None) ->
  forall s min p,
    rep_greedy cls min p s k =
    let '(a, b) := span cls s in
    if (min <=? length a)%nat then k (p + length a)%nat b else None.
Proof.
  intros Hk. induction s as [|c s IH]; intros min p; simpl.
  - destruct min; simpl; [now rewrite Nat.add_0_r | reflexivity].
  - destruct (cls c) eqn:Hc.
    + rewrite IH. destruct (span cls s) as [a b].
      assert (Hstop : match min with O => k p (String c s) | S _ => None end = None)
        by (destruct min; auto).
      rewrite Hstop. cbn [length]. rewrite Nat.add_succ_r.
      change (S p + length a)%nat with (S (p + length a)).
      destruct min as [|m]; cbn [Nat.pred Nat.leb].
      * destruct (k _ b); reflexivity.
      * destruct (m <=? length a)%nat; [destruct (k _ b)|]; reflexivity.
    + simpl. destruct min; simpl; [now rewrite Nat.add_0_r | reflexivity].
Qed.

(** A greedy repetition stops at the end of the run when the continuation
    accepts there. *)
Lemma rep_greedy_max {A} cls (k : nat -> string -> option A) a b min p r :
  all cls a = true -> starts_with_cls cls b = false ->
  (min <= length a)%nat ->
  k (p + length a)%nat b = Some r ->
  rep_greedy cls min p (a ++ b) k = Some r.
Proof.
  revert min p. induction a as [|c a IH]; intros min p Ha Hb Hmin Hk; simpl in *.
  - assert (min = 0%nat) by lia. subst. rewrite Nat.add_0_r in Hk.
    destruct b as [|c b]; simpl in *; [exact Hk | now rewrite Hb].
  - apply andb_true_iff in Ha as [Hc Ha]. rewrite Hc.
    rewrite (IH (Nat.pred min) (S p)); auto; [lia |].
    rewrite <- Hk. f_equal. lia.
Qed.

(** Whatever a greedy repetition returns, the continuation returned it
    after some part of the run. *)
Lemma rep_greedy_sound {A} cls (k : nat -> string -> option A) s min p r :
  rep_greedy cls min p s k = Some r ->
  exists a b, s = a ++ b /\ all cls a = true /\ (min <= length a)%nat
              /\ k (p + length a)%nat b = Some r.
Proof.
  revert min p. induction s as [|c s IH]; intros min p H; simpl in H.
  - destruct min; [|discriminate]. exists "", "". simpl.
    rewrite Nat.add_0_r. auto.
  - assert (Hstop : match min with O => k p (String c s) | S _ => None end = Some r ->
                    exists a b, String c s = a ++ b /\ all cls a = true
                                /\ (min <= length a)%nat /\ k (p + length a)%nat b = Some r).
    { destruct min; [|discriminate]. intros Hk. exists "", (String c s). simpl.
      rewrite Nat.add_0_r. auto. }
    destruct (cls c) eqn:Hc; [|auto].
    destruct (rep_greedy cls (Nat.pred min) (S p) s k) eqn:Hr; simpl in H; [|auto].
    injection H as ->. apply IH in Hr as (a & b & -> & Ha & Hmin & Hk).
    exists (String c a), b. simpl. rewrite Hc, Ha.
    replace (p + S (length a))%nat with (S p + length a)%nat by lia.
    repeat split; auto; lia.
Qed.

(** *** Character classes *)

Lemma word_not_space c : isword c = true -> isspace c = false.
Proof. destruct c as [[] [] [] [] [] [] [] []]; vm_compute; congruence. Qed.

Lemma word_not_opchar c : isword c = true -> is_opchar c = false.
Proof. destruct c as [[] [] [] [] [] [] [] []]; vm_compute; congruence. Qed.

Lemma space_not_opchar c : isspace c = true -> is_opchar c = false.
Proof. destruct c as [[] [] [] [] [] [] [] []]; vm_compute; congruence. Qed.

Lemma ascii_word_is_word c : is_ascii_word c = true -> isword c = true.
Proof. destruct c as [[] [] [] [] [] [] [] []]; vm_compute; congruence. Qed.

Lemma all_impl (p q : ascii -> bool) s :
  (forall c, p c = true -> q c = true) -> all p s = true -> all q s = true.
Proof.
  intros H. induction s as [|c s IH]; simpl; [auto |].
  intros [Hc Hs]%andb_true_iff. rewrite (H _ Hc). auto.
Qed.

(** *** The pieces of the pattern *)

Lemma group_alt {A} i r1 r2 st (k : mstate -> option A) :
  rmatch (Group i (r1 <|> r2)%re) st k
  = orelse (rmatch (Group i r1) st k) (rmatch (Group i r2) st k).
Proof. reflexivity. Qed.

Lemma group_lit {A} i l r p g (k : mstate -> option A) :
  rmatch (Group i (Lit l)) (MState p (l ++ r) g) k
  = k (MState (p + length l) r ((i, l) :: g)).
Proof.
  cbn [rmatch rest pos groups]. rewrite prefix_app, drop_app.
  replace (p + length l - p)%nat with (length l) by lia.
  now rewrite take_app.
Qed.

Lemma group_lit_fail {A} i l s p g (k : mstate -> option A) :
  prefix l s = false -> rmatch (Group i (Lit l)) (MState p s g) k = None.
Proof. intros H. cbn [rmatch rest]. now rewrite H. Qed.

Lemma prefix_opchar op c s :
  In op operators -> prefix op (String c s) = true -> is_opchar c = true.
Proof.
  intros Hop H. unfold operators in Hop. simpl in Hop.
  destruct Hop as [<-|[<-|[<-|[<-|[<-|[<-|[]]]]]]]; cbn [prefix] in H;
    match type of H with
    | context [ascii_dec ?a c] => destruct (ascii_dec a c) as [<-|]; [reflexivity | discriminate]
    end.
Qed.

(** No operator starts with a character that is not [=], [!], [>] or [<]. *)
Lemma operator_fails {A} (k : mstate -> option A) p s g :
  starts_with_cls is_opchar s = false ->
  rmatch (Group 2 operator_re) (MState p s g) k = None.
Proof.
  intros H. unfold operator_re. rewrite !group_alt.
  assert (F : forall op, In op operators -> prefix op s = false).
  { intros op Hop. destruct s as [|c s]; [|simpl in H].
    - unfold operators in Hop; simpl in Hop.
      destruct Hop as [<-|[<-|[<-|[<-|[<-|[<-|[]]]]]]]; reflexivity.
    - destruct (prefix op (String c s)) eqn:E; [|reflexivity].
      apply prefix_opchar in E; congruence. }
  rewrite !group_lit_fail; [reflexivity | ..]; apply F; unfold operators; simpl; auto 10.
Qed.

(** A match of the operator group took one of the six operators. *)
Lemma operator_sound {A} (k : mstate -> option A) p s g m :
  rmatch (Group 2 operator_re) (MState p s g) k = Some m ->
  exists op, In op operators /\ prefix op s = true.
Proof.
  unfold operator_re. rewrite !group_alt. cbn [rmatch rest]. unfold operators.
  repeat match goal with
  | |- context [prefix ?l s] =>
      destruct (prefix l s) eqn:?; [intros _; exists l; simpl; auto 10 |]
  end.
  discriminate.
Qed.

(** The pattern up to the operator: the whole run of word characters is the
    field, and the white space after it is skipped. *)
Lemma field_prefix (R : regex) s :
  (forall p c s' g (k : mstate -> option (list (nat * string))),
      is_opchar c = false -> rmatch R (MState p (String c s') g) k = None) ->
  rmatch (Bol +> Group 1 (Rep isword 1) +> Rep isspace 0 +> R)%re
         (MState 0 s []) final
  = let '(f, r1) := span isword s in
    let '(w, r2) := span isspace r1 in
    if (1 <=? length f)%nat
    then rmatch R (MState (length f + length w) r2 [(1, f)]) final
    else None.
Proof.
  intros HR. cbn [rmatch pos rest groups Nat.eqb].
  rewrite rep_greedy_skip.
  - pose proof (span_spec isword s) as Hs.
    destruct (span isword s) as [f r1]. destruct Hs as (-> & _ & _).
    cbn [Nat.add]. rewrite Nat.sub_0_r, take_app.
    destruct (1 <=? length f)%nat; [|now destruct (span isspace r1)].
    rewrite rep_greedy_skip.
    + now destruct (span isspace r1) as [w r2].
    + intros p c s' Hc. apply HR. now apply space_not_opchar.
  - intros p c s' Hc. cbn [rep_greedy]. rewrite (word_not_space _ Hc).
    apply HR. now apply word_not_opchar.
Qed.

Lemma rmatch_seq {A} r1 r2 st (k : mstate -> option A) :
  rmatch (r1 +> r2)%re st k = rmatch r1 st (fun st' => rmatch r2 st' k).
Proof. reflexivity. Qed.

Lemma operator_then_fails R {A} (k : mstate -> option A) p c s g :
  is_opchar c = false ->
  rmatch (Group 2 operator_re +> R)%re (MState p (String c s) g) k = None.
Proof. intros H. rewrite rmatch_seq. now apply operator_fails. Qed.

(** [re.match] on the query pattern, up to the operator. *)
Lemma re_match_pattern s :
  re_match pattern s
  = let '(f, r1) := span isword s in
    let '(w, r2) := span isspace r1 in
    if (1 <=? length f)%nat
    then rmatch (Group 2 operator_re +> value_re)%re
                (MState (length f + length w) r2 [(1, f)]) final
    else None.
Proof.
  unfold re_match.
  change pattern with
    (Bol +> Group 1 (Rep isword 1) +> Rep isspace 0
         +> (Group 2 operator_re +> value_re))%re.
  apply (field_prefix (Group 2 operator_re +> value_re)%re).
  intros. now apply operator_then_fails.
Qed.

(** *** The value part *)

Lemma value_complete w a p g :
  all isspace w = true -> a <> "" -> starts_with_cls isspace a = false ->
  all notnewline a = true ->
  rmatch value_re (MState p (w ++ a) g) final = Some ((3, a) :: g).
Proof.
  intros Hw Ha Hs Hn. unfold value_re. cbn [rmatch pos rest groups].
  apply rep_greedy_max; auto with arith.
  cbv beta.
  pose proof (rep_greedy_max notnewline
    (fun p' s' => rmatch Eol
       (MState p' s' ((3, take (p' - (p + length w)) a) :: g)) final)
    a "" 1 (p + length w)%nat ((3, a) :: g) Hn eq_refl) as H.
  rewrite app_empty_r in H. apply H.
  - destruct a; [congruence | simpl; lia].
  - cbn [rmatch rest pos groups]. unfold final. cbn [rest pos groups].
    replace (p + length w + length a - (p + length w))%nat with (length a) by lia.
    rewrite <- (app_empty_r a) at 2. now rewrite take_app.
Qed.

Lemma value_sound r p g m :
  rmatch value_re (MState p r g) final = Some m ->
  exists w a b, r = w ++ a ++ b /\ all isspace w = true /\ a <> ""
                /\ all notnewline a = true /\ (b = "" \/ b = newline)
                /\ m = (3, a) :: g.
Proof.
  unfold value_re. cbn [rmatch pos rest groups]. intros H.
  apply rep_greedy_sound in H as (w & r' & -> & Hw & _ & H).
  apply rep_greedy_sound in H as (a & b & -> & Ha & Hmin & H).
  exists w, a, b. repeat split; auto.
  - destruct a; [simpl in Hmin; lia | congruence].
  - cbn [rmatch rest pos groups] in H. destruct b as [|c [|c' b]]; auto; [|discriminate].
    destruct (ord c =? 10)%N eqn:E; [|discriminate]. right.
    apply N.eqb_eq in E. unfold newline. f_equal.
    rewrite <- (ascii_N_embedding c). unfold ord in E. now rewrite E.
  - cbn [rmatch rest pos groups] in H.
    replace (p + length w + length a - (p + length w))%nat
      with (length a) in H by lia. rewrite take_app in H.
    destruct b as [|c [|c' b]]; unfold final in H; cbn [rest pos groups] in H;
      [congruence | destruct (ord c =? 10)%N; congruence | discriminate].
Qed.

(** *** Trimming *)

Lemma all_app cls a b : all cls (a ++ b) = all cls a && all cls b.
Proof. induction a as [|c a IH]; simpl; [reflexivity | now rewrite IH, andb_assoc]. Qed.

Lemma eqb_empty_false s : s <> "" -> (s =? "") = false.
Proof. destruct s; [congruence | reflexivity]. Qed.

Lemma eqb_empty_true s : (s =? "") = true -> s = "".
Proof. destruct s; [reflexivity | discriminate]. Qed.

Lemma lstrip_app_space w x : all isspace w = true -> lstrip (w ++ x) = lstrip x.
Proof.
  induction w as [|c w IH]; simpl; [reflexivity |].
  intros [Hc Hw]%andb_true_iff. rewrite Hc. auto.
Qed.

Lemma lstrip_nonspace x : starts_with_cls isspace x = false -> lstrip x = x.
Proof. destruct x as [|c x]; simpl; [reflexivity | now intros ->]. Qed.

Lemma lstrip_spec y :
  exists w, y = w ++ lstrip y /\ all isspace w = true
            /\ starts_with_cls isspace (lstrip y) = false.
Proof.
  induction y as [|c y (w & E & Hw & Hs)]; simpl.
  - exists "". auto.
  - destruct (isspace c) eqn:Hc.
    + exists (String c w). simpl. rewrite Hc, Hw. repeat split; congruence.
    + exists "". simpl. auto.
Qed.

Lemma rstrip_space w : all isspace w = true -> rstrip w = "".
Proof.
  induction w as [|c w IH]; simpl; [reflexivity |].
  intros [Hc Hw]%andb_true_iff. now rewrite IH, Hc.
Qed.

Lemma rstrip_app_space x w : all isspace w = true -> rstrip (x ++ w) = rstrip x.
Proof.
  intros Hw. induction x as [|c x IH]; simpl.
  - now apply rstrip_space.
  - now rewrite IH.
Qed.

Lemma rstrip_app_keep x v : rstrip v <> "" -> rstrip (x ++ v) = x ++ rstrip v.
Proof.
  intros Hv. induction x as [|c x IH]; simpl; [reflexivity |].
  rewrite IH. destruct (x ++ rstrip v) eqn:E; [|reflexivity].
  destruct x; simpl in E; congruence.
Qed.

Lemma rstrip_spec y :
  exists w, y = rstrip y ++ w /\ all isspace w = true
            /\ rstrip (rstrip y) = rstrip y.
Proof.
  induction y as [|c y (w & E & Hw & Hi)]; simpl.
  - exists "". auto.
  - destruct (rstrip y) as [|c' r] eqn:Hr.
    + simpl in E. subst y. destruct (isspace c) eqn:Hc.
      * exists (String c w). simpl. now rewrite Hc, Hw.
      * exists w. simpl. now rewrite Hc.
    + exists w. rewrite E at 1. repeat split; auto.
      change (rstrip (String c (String c' r))) with
        (match rstrip (String c' r) with
         | "" => if isspace c then "" else String c ""
         | r' => String c r'
         end).
      now rewrite Hi.
Qed.

Lemma rstrip_head y :
  starts_with_cls isspace y = false -> starts_with_cls isspace (rstrip y) = false.
Proof.
  destruct y as [|c y]; simpl; [reflexivity |]. intros Hc.
  destruct (rstrip y); simpl; now rewrite Hc.
Qed.

(** What [strip] leaves: the text between the white space at both ends. *)
Lemma strip_spec s :
  exists w w', s = w ++ strip s ++ w'
    /\ all isspace w = true /\ all isspace w' = true
    /\ starts_with_cls isspace (strip s) = false
    /\ rstrip (strip s) = strip s.
Proof.
  unfold strip.
  destruct (lstrip_spec s) as (w & E & Hw & Hs).
  destruct (rstrip_spec (lstrip s)) as (w' & E' & Hw' & Hi).
  exists w, w'. repeat split; auto.
  - now rewrite <- E'.
  - now apply rstrip_head.
Qed.

Lemma strip_idem s : strip (strip s) = strip s.
Proof.
  destruct (strip_spec s) as (_ & _ & _ & _ & _ & Hs & Hi).
  unfold strip at 1. now rewrite lstrip_nonspace.
Qed.

Lemma strip_space w : all isspace w = true -> strip w = "".
Proof.
  intros Hw. unfold strip. rewrite <- (app_empty_r w), lstrip_app_space by auto.
  reflexivity.
Qed.

(** [strip] of a text with white space around a core that has none at
    its ends. *)
Lemma strip_core w x v w' :
  all isspace w = true -> all isspace w' = true ->
  starts_with_cls isspace (x ++ v) = false ->
  v <> "" -> rstrip v = v ->
  strip (w ++ (x ++ v) ++ w') = x ++ v.
Proof.
  intros Hw Hw' Hs Hv Hr. unfold strip.
  rewrite lstrip_app_space by auto.
  rewrite lstrip_nonspace.
  - rewrite rstrip_app_space by auto. rewrite rstrip_app_keep; congruence.
  - destruct (x ++ v) eqn:E; [destruct x; simpl in E; congruence | exact Hs].
Qed.

Lemma starts_with_app cls a b :
  a <> "" -> starts_with_cls cls (a ++ b) = starts_with_cls cls a.
Proof. destruct a; [congruence | reflexivity]. Qed.

Lemma prefix1_app c a b :
  a <> "" -> prefix (String c "") (a ++ b) = prefix (String c "") a.
Proof.
  destruct a as [|c' a]; [congruence |]. intros _. cbn [append prefix].
  destruct (ascii_dec c c'); [|reflexivity]. now destruct (a ++ b), a.
Qed.

(** ** The parser *)

Lemma operator_head op x :
  In op operators ->
  starts_with_cls isword (op ++ x) = false
  /\ starts_with_cls isspace (op ++ x) = false
  /\ op <> "".
Proof.
  unfold operators. simpl.
  intros [<-|[<-|[<-|[<-|[<-|[<-|[]]]]]]]; repeat split; discriminate.
Qed.

Lemma space_then_operator ws op x :
  all isspace ws = true -> In op operators ->
  starts_with_cls isword (ws ++ op ++ x) = false.
Proof.
  intros Hw Hop. destruct ws as [|c ws]; simpl in *.
  - now apply operator_head.
  - apply andb_true_iff in Hw as [Hc _].
    destruct (isword c) eqn:E; [|reflexivity].
    apply word_not_space in E. congruence.
Qed.

(** The operator group and the value after it, once the field is read. *)
Lemma operator_and_value op w v p g :
  In op operators ->
  all isspace w = true -> v <> "" -> starts_with_cls isspace v = false ->
  all notnewline v = true ->
  (op = ">" \/ op = "<" -> prefix "=" (w ++ v) = false) ->
  rmatch (Group 2 operator_re +> value_re)%re (MState p (op ++ w ++ v) g) final
  = Some ((3, v) :: (2, op) :: g).
Proof.
  intros Hop Hw Hv Hs Hn Heq. rewrite rmatch_seq. unfold operator_re.
  rewrite !group_alt.
  unfold operators in Hop. simpl in Hop.
  destruct Hop as [<-|[<-|[<-|[<-|[<-|[<-|[]]]]]]].
  - rewrite group_lit. now rewrite value_complete.
  - rewrite group_lit_fail by reflexivity.
    rewrite group_lit. now rewrite value_complete.
  - rewrite !group_lit_fail by reflexivity.
    rewrite group_lit. now rewrite value_complete.
  - rewrite !group_lit_fail by reflexivity.
    rewrite group_lit. now rewrite value_complete.
  - rewrite 2 group_lit_fail by reflexivity.
    rewrite (group_lit_fail 2 ">=").
    2:{ cbn [append prefix]. destruct (ascii_dec ">" ">"); [|congruence].
        apply Heq. auto. }
    rewrite group_lit_fail by reflexivity.
    rewrite group_lit. now rewrite value_complete.
  - rewrite 3 group_lit_fail by reflexivity.
    rewrite (group_lit_fail 2 "<=").
    2:{ cbn [append prefix]. destruct (ascii_dec "<" "<"); [|congruence].
        apply Heq. auto. }
    rewrite group_lit_fail by reflexivity.
    rewrite group_lit. now rewrite value_complete.
Qed.

(** A well-formed query is parsed into its field, its operator and its
    trimmed value, the value through [parse_value]. *)
Lemma parse_well_formed pad field ws op raw :
  all isspace pad = true ->
  all isword field = true -> field <> "" ->
  all isspace ws = true ->
  In op operators ->
  strip raw <> "" -> all notnewline (strip raw) = true ->
  (op = ">" \/ op = "<" -> startswith raw "=" = false) ->
  parse_query_string (VStr (pad ++ field ++ ws ++ op ++ raw))
  = Some (field, op, parse_value (strip raw)).
Proof.
  intros Hpad Hf Hfe Hws Hop Hv Hn Heq.
  destruct (strip_spec raw) as (w & w' & Hraw & Hw & Hw' & Hs & Hi).
  set (v := strip raw) in *.
  assert (Hfs : starts_with_cls isspace field = false).
  { destruct field as [|c f]; [congruence |]. simpl in *.
    apply andb_true_iff in Hf as [Hc _]. now apply word_not_space. }
  assert (Hstrip : strip (pad ++ field ++ ws ++ op ++ raw)
                   = field ++ ws ++ op ++ w ++ v).
  { rewrite Hraw.
    replace (pad ++ field ++ ws ++ op ++ w ++ v ++ w')
      with (pad ++ ((field ++ ws ++ op ++ w) ++ v) ++ w')
      by now rewrite !app_assoc.
    rewrite strip_core; auto.
    - now rewrite !app_assoc.
    - rewrite !app_assoc. now rewrite starts_with_app. }
  unfold parse_query_string.
  destruct (pad ++ field ++ ws ++ op ++ raw =? "") eqn:E.
  { apply eqb_empty_true in E. rewrite E in Hstrip. cbn in Hstrip.
    destruct field; [congruence | discriminate]. }
  rewrite Hstrip.
  rewrite eqb_empty_false by (destruct field; [congruence | discriminate]).
  rewrite re_match_pattern.
  rewrite (span_app isword field (ws ++ op ++ w ++ v)) by
    (auto using space_then_operator).
  rewrite (span_app isspace ws (op ++ w ++ v)) by
    (auto; now apply operator_head).
  replace (1 <=? length field)%nat with true
    by (destruct field; [congruence | reflexivity]).
  rewrite operator_and_value; auto.
  - cbn [group Nat.eqb]. subst v. rewrite strip_idem.
    rewrite (eqb_empty_false field), (eqb_empty_false op),
      (eqb_empty_false (strip raw)); auto.
    eapply operator_head with (x := ""); eauto.
  - intros H. specialize (Heq H). unfold startswith in Heq.
    rewrite Hraw in Heq. rewrite <- app_assoc in Heq.
    rewrite prefix1_app in Heq; auto.
    destruct w; simpl; [auto | discriminate].
Qed.

(** Anything but non-empty text is no query. *)
Lemma parse_not_text v :
  (forall s, v = VStr s -> strip s = "") -> parse_query_string v = None.
Proof.
  intros H. destruct v; try reflexivity. simpl.
  rewrite (H s eq_refl). cbn. now destruct (s =? "").
Qed.

(** A query whose text does not start with a word character has no field. *)
Lemma parse_no_field s :
  starts_with_cls isword (strip s) = false -> parse_query_string (VStr s) = None.
Proof.
  intros H. unfold parse_query_string.
  destruct (s =? ""); [reflexivity |].
  destruct (strip s =? ""); [reflexivity |].
  rewrite re_match_pattern.
  destruct (strip s) as [|c t]; [reflexivity |]. simpl in H. simpl. rewrite H.
  pose proof (span_spec isspace (String c t)) as _.
  now destruct (span isspace (String c t)).
Qed.

Lemma contains_prefix op s : prefix op s = true -> contains op s = true.
Proof. destruct s; simpl; intros ->; reflexivity. Qed.

Lemma contains_app_r op a b : contains op b = true -> contains op (a ++ b) = true.
Proof.
  intros H. induction a as [|c a IH]; simpl; [exact H |].
  rewrite IH. apply orb_true_r.
Qed.

Lemma prefix_app_l op a b : prefix op a = true -> prefix op (a ++ b) = true.
Proof.
  revert a. induction op as [|c op IH]; intros a; simpl.
  - now destruct (a ++ b).
  - destruct a as [|c' a]; simpl; [discriminate |].
    destruct (ascii_dec c c'); auto.
Qed.

Lemma contains_app_l op a b : contains op a = true -> contains op (a ++ b) = true.
Proof.
  induction a as [|c a IH]; simpl.
  - rewrite orb_false_r. intros H. destruct op; [|discriminate].
    destruct b; reflexivity.
  - intros [H|H]%orb_true_iff.
    + apply (prefix_app_l _ (String c a) b) in H. simpl in H. now rewrite H.
    + rewrite (IH H). apply orb_true_r.
Qed.

(** A query that parses has an operator in it. *)
Lemma parse_has_operator s r :
  parse_query_string (VStr s) = Some r -> has_operator s = true.
Proof.
  unfold parse_query_string.
  destruct (s =? ""); [discriminate |].
  destruct (strip s =? ""); [discriminate |].
  destruct (re_match pattern (strip s)) as [m|] eqn:E; [|discriminate].
  intros _. rewrite re_match_pattern in E.
  pose proof (span_spec isword (strip s)) as H1.
  destruct (span isword (strip s)) as [f r1].
  pose proof (span_spec isspace r1) as H2.
  destruct (span isspace r1) as [w r2].
  destruct (1 <=? length f)%nat; [|discriminate].
  rewrite rmatch_seq in E. apply operator_sound in E as (op & Hop & Hp).
  destruct H1 as (H1 & _). destruct H2 as (H2 & _).
  destruct (strip_spec s) as (l & l' & Hs & _).
  unfold has_operator. apply existsb_exists. exists op. split; [exact Hop |].
  rewrite Hs. apply contains_app_r, contains_app_l.
  rewrite H1. apply contains_app_r. rewrite H2. apply contains_app_r.
  now apply contains_prefix.
Qed.

(** A query that ends after [==], [!=], [>] or [<] has no value. *)
Lemma parse_no_value pad field ws op ws' :
  all isspace pad = true ->
  all isword field = true -> field <> "" ->
  all isspace ws = true ->
  In op ["=="; "!="; ">"; "<"] ->
  all isspace ws' = true ->
  parse_query_string (VStr (pad ++ field ++ ws ++ op ++ ws')) = None.
Proof.
  intros Hpad Hf Hfe Hws Hop Hws'.
  assert (Hop' : In op operators)
    by (unfold operators; simpl in *; intuition).
  assert (Hfs : starts_with_cls isspace field = false).
  { destruct field as [|c f]; [congruence |]. simpl in *.
    apply andb_true_iff in Hf as [Hc _]. now apply word_not_space. }
  assert (Hstrip : strip (pad ++ field ++ ws ++ op ++ ws') = field ++ ws ++ op).
  { replace (pad ++ field ++ ws ++ op ++ ws')
      with (pad ++ ((field ++ ws) ++ op) ++ ws') by now rewrite !app_assoc.
    rewrite strip_core; auto.
    - now rewrite !app_assoc.
    - rewrite !app_assoc. now rewrite starts_with_app.
    - now apply (operator_head op "").
    - simpl in Hop. destruct Hop as [<-|[<-|[<-|[<-|[]]]]]; reflexivity. }
  unfold parse_query_string.
  destruct (_ =? ""); [reflexivity |]. rewrite Hstrip.
  destruct (_ =? ""); [reflexivity |].
  rewrite re_match_pattern.
  rewrite <- (app_empty_r op) at 1.
  rewrite (span_app isword field (ws ++ op ++ "")) by
    (auto using space_then_operator).
  rewrite (span_app isspace ws (op ++ "")) by
    (auto; now apply operator_head).
  destruct (1 <=? length field)%nat; [|reflexivity].
  simpl in Hop. destruct Hop as [<-|[<-|[<-|[<-|[]]]]]; reflexivity.
Qed.

(** *** [parse_value] *)

Lemma parse_value_unfold s :
  parse_value s = if quoted (strip s) then slice (strip s) 1 (-1) else strip s.
Proof. reflexivity. Qed.

Lemma substring_0_app a b : substring 0 (length a) (a ++ b) = a.
Proof. exact (take_app a b). Qed.

Lemma quote_cases q : In q [dquote; squote] -> q = dquote \/ q = squote.
Proof. simpl. intuition. Qed.

(** Text between two quotes of a kind is returned as it is. *)
Lemma parse_value_quoted q t :
  In q [dquote; squote] -> parse_value (q ++ t ++ q) = t.
Proof.
  intros Hq. rewrite parse_value_unfold.
  assert (Hstrip : strip (q ++ t ++ q) = q ++ t ++ q).
  { pose proof (strip_core "" (q ++ t) q "") as H. cbn [append] in H.
    rewrite app_empty_r, app_assoc in H. apply H; auto.
    - destruct (quote_cases q Hq) as [-> | ->]; reflexivity.
    - destruct (quote_cases q Hq) as [-> | ->]; discriminate.
    - destruct (quote_cases q Hq) as [-> | ->]; reflexivity. }
  rewrite Hstrip.
  assert (Hlen : length (q ++ t ++ q) = S (S (length t))).
  { rewrite !length_app. destruct (quote_cases q Hq) as [-> | ->]; simpl; lia. }
  assert (Hend : endswith (q ++ t ++ q) q = true).
  { unfold endswith. rewrite Hlen.
    replace (S (S (length t)) - length q)%nat with (length (q ++ t))
      by (rewrite length_app; destruct (quote_cases q Hq) as [-> | ->]; simpl; lia).
    rewrite <- app_assoc, drop_app, String.eqb_refl.
    destruct (quote_cases q Hq) as [-> | ->]; reflexivity. }
  assert (Hstart : startswith (q ++ t ++ q) q = true) by apply prefix_app.
  assert (Hquoted : quoted (q ++ t ++ q) = true).
  { unfold quoted. destruct (quote_cases q Hq) as [-> | ->];
      rewrite Hstart, Hend; [reflexivity | apply orb_true_r]. }
  rewrite Hquoted. unfold slice, slice_index. rewrite Hlen.
  replace (1 <? 0)%Z with false by reflexivity.
  replace (-1 <? 0)%Z with true by reflexivity.
  replace (Z.to_nat (Z.min 1 (Z.of_nat (S (S (length t)))))) with 1%nat by lia.
  replace (Z.to_nat _) with (length t) by lia.
  destruct (quote_cases q Hq) as [-> | ->]; cbn [append dquote squote substring];
    apply substring_0_app.
Qed.

(** Text that is not between quotes is returned trimmed. *)
Lemma parse_value_plain s : quoted (strip s) = false -> parse_value s = strip s.
Proof. intros H. now rewrite parse_value_unfold, H. Qed.

Lemma strip_all_space s : strip s = "" -> all isspace s = true.
Proof.
  intros H. destruct (strip_spec s) as (w & w' & E & Hw & Hw' & _).
  rewrite H in E. rewrite E, all_app. cbn [append]. now rewrite Hw, Hw'.
Qed.

Lemma strip_lead_space t : strip (" " ++ t) = strip t.
Proof. reflexivity. Qed.

Lemma quote_notnewline q t :
  In q [dquote; squote] -> all notnewline t = true ->
  all notnewline (q ++ t ++ q) = true.
Proof.
  intros Hq Ht. rewrite !all_app, Ht.
  destruct (quote_cases q Hq) as [-> | ->]; reflexivity.
Qed.

Lemma strip_quoted w q t :
  all isspace w = true -> In q [dquote; squote] ->
  strip (w ++ q ++ t ++ q) = q ++ t ++ q.
Proof.
  intros Hw Hq.
  pose proof (strip_core w (q ++ t) q "") as H.
  rewrite app_empty_r, app_assoc in H. apply H; auto.
  - destruct (quote_cases q Hq) as [-> | ->]; reflexivity.
  - destruct (quote_cases q Hq) as [-> | ->]; discriminate.
  - destruct (quote_cases q Hq) as [-> | ->]; reflexivity.
Qed.

Lemma snoc_split x : x <> "" -> exists y d, x = y ++ String d "".
Proof.
  induction x as [|c x IH]; [congruence |]. intros _.
  destruct x as [|c' x'].
  - exists "", c. reflexivity.
  - destruct IH as (y & d & E); [discriminate |].
    exists (String c y), d. cbn [append]. now rewrite <- E.
Qed.

(** Text that starts and ends with the character [c] is [c] alone or has
    text between two of them. *)
Lemma enclosed_split x c :
  startswith x (String c "") = true -> endswith x (String c "") = true ->
  x = String c "" \/ exists t, x = String c "" ++ t ++ String c "".
Proof.
  unfold startswith, endswith. intros Hs He.
  apply andb_true_iff in He as [_ He]. apply String.eqb_eq in He.
  destruct x as [|c0 x]; [discriminate |].
  cbn [prefix] in Hs. destruct (ascii_dec c c0) as [<-|]; [|discriminate].
  destruct x as [|c1 x]; [now left | right].
  destruct (snoc_split (String c1 x)) as (y & d & E); [discriminate |].
  rewrite E in *. exists y.
  replace (length (String c (y ++ String d "")) - length (String c ""))%nat
    with (length (String c y)) in He
    by (cbn [length]; rewrite length_app; cbn [length]; lia).
  change (String c (y ++ String d "")) with (String c y ++ String d "") in He.
  rewrite drop_app in He. now injection He as ->.
Qed.

(** Text the test of [parse_value] holds of is a quote alone or text between
    two quotes of a kind. *)
Lemma quoted_forms x :
  quoted x = true ->
  exists q, In q [dquote; squote] /\ (x = q \/ exists t, x = q ++ t ++ q).
Proof.
  unfold quoted. intros [Q | Q]%orb_true_iff;
    apply andb_true_iff in Q as [Hs He];
    [exists dquote | exists squote]; (split; [simpl; auto |]);
    destruct (enclosed_split _ _ Hs He) as [E | [t E]]; eauto.
Qed.

Lemma unquoted_plain x :
  (forall q, In q [dquote; squote] -> x <> q /\ forall t, x <> q ++ t ++ q) ->
  quoted x = false.
Proof.
  intros H. destruct (quoted x) eqn:Q; [|reflexivity].
  destruct (quoted_forms x Q) as (q & Hq & [E | [t E]]);
    destruct (H q Hq) as (H1 & H2); [now apply H1 in E | now apply H2 in E].
Qed.

(** ** The claims on the parser *)

(** C5, as amended.  A query [pad field ws op raw], with the field a
    non-empty run of [[A-Za-z0-9_]], one of the six operators, and a trimmed
    value that is not empty, has no line feed and, right after [>] or [<],
    does not begin with [=], is parsed into the field, the operator and a
    value: the text between the quotes when the trimmed value is between
    two quotes of a kind, the empty text when it is a quote alone, and the
    trimmed value itself in every other case.  A query that ends after
    [==], [!=], [>] or [<], text with no operator in it, text that does not
    start with a word character, and anything that is not non-blank text give
    [None]. *)
Theorem parse_query_string_amended :
  (forall pad field ws op raw,
      all isspace pad = true ->
      all is_ascii_word field = true -> field <> "" ->
      all isspace ws = true ->
      In op operators ->
      strip raw <> "" -> all notnewline (strip raw) = true ->
      (op = ">" \/ op = "<" -> startswith raw "=" = false) ->
      exists v,
        parse_query_string (VStr (pad ++ field ++ ws ++ op ++ raw))
        = Some (field, op, v)
        /\ (forall q t, In q [dquote; squote] -> strip raw = q ++ t ++ q -> v = t)
        /\ (forall q, In q [dquote; squote] -> strip raw = q -> v = "")
        /\ ((forall q, In q [dquote; squote] ->
                       strip raw <> q /\ forall t, strip raw <> q ++ t ++ q) ->
            v = strip raw))
  /\ (forall pad field ws op raw,
      all isspace pad = true ->
      all is_ascii_word field = true -> field <> "" ->
      all isspace ws = true ->
      In op ["=="; "!="; ">"; "<"] ->
      strip raw = "" ->
      parse_query_string (VStr (pad ++ field ++ ws ++ op ++ raw)) = None)
  /\ (forall s, has_operator s = false -> parse_query_string (VStr s) = None)
  /\ (forall s, starts_with_cls isword (strip s) = false ->
                parse_query_string (VStr s) = None)
  /\ (forall v, (forall s, v = VStr s -> strip s = "") ->
                parse_query_string v = None).
Proof.
  split; [|repeat split].
  - intros pad field ws op raw Hpad Hf Hfe Hws Hop Hv Hn Heq.
    exists (parse_value (strip raw)). repeat split.
    + apply parse_well_formed; auto.
      eapply all_impl; [apply ascii_word_is_word | assumption].
    + intros q t Hq E. rewrite E. now apply parse_value_quoted.
    + intros q Hq E. rewrite E.
      destruct (quote_cases q Hq) as [-> | ->]; reflexivity.
    + intros H. rewrite parse_value_plain; rewrite strip_idem; auto.
      now apply unquoted_plain.
  - intros. apply parse_no_value; auto using strip_all_space.
    eapply all_impl; [apply ascii_word_is_word | assumption].
  - intros s H. destruct (parse_query_string (VStr s)) eqn:E; [|reflexivity].
    apply parse_has_operator in E. congruence.
  - apply parse_no_field.
  - apply parse_not_text.
Qed.

Lemma parse_query_string_amended_witness :
  parse_query_string
    (VStr ("  " ++ "name" ++ " " ++ "==" ++ (" " ++ dquote ++ "Bob" ++ dquote ++ " ")))
  = Some ("name", "==", "Bob").
Proof.
  destruct (proj1 parse_query_string_amended "  " "name" " " "=="
              (" " ++ dquote ++ "Bob" ++ dquote ++ " ")
              eq_refl eq_refl ltac:(discriminate) eq_refl ltac:(simpl; auto)
              ltac:(vm_compute; discriminate) eq_refl
              ltac:(intros [H | H]; discriminate H))
    as (v & Hp & Hq & _).
  rewrite Hp. rewrite (Hq dquote "Bob"); [reflexivity | simpl; auto | reflexivity].
Defined.

(** C5 as it is stated does not hold: the value of a quoted query is not its
    trimmed value segment, a value with a line feed in it is no match, and
    [=] right after [>] goes to the operator. *)
Lemma parse_query_string_counterexample :
  let quoted_bob := dquote ++ "Bob" ++ dquote in
  let two_lines := "b" ++ newline ++ "c" in
  (strip quoted_bob = quoted_bob
   /\ parse_query_string (VStr ("name" ++ " " ++ "==" ++ " " ++ quoted_bob))
      <> Some ("name", "==", quoted_bob))
  /\ (strip two_lines = two_lines
      /\ parse_query_string (VStr ("a" ++ " " ++ "==" ++ " " ++ two_lines))
         <> Some ("a", "==", two_lines))
  /\ parse_query_string (VStr ("a" ++ ">" ++ "=5")) <> Some ("a", ">", "=5").
Proof. repeat split; try reflexivity; vm_compute; discriminate. Qed.

(** C6.  A literal between quotes and the same literal without them parse
    to the same value, the literal: the outer quotes are removed and what is
    between them is taken as it is. *)
Theorem quoted_and_unquoted_agree field op q t :
  all isword field = true -> field <> "" ->
  In op operators -> In q [dquote; squote] ->
  t <> "" -> strip t = t -> all notnewline t = true -> quoted t = false ->
  parse_query_string (VStr (field ++ " " ++ op ++ " " ++ q ++ t ++ q))
  = Some (field, op, t)
  /\ parse_query_string (VStr (field ++ " " ++ op ++ " " ++ t))
     = Some (field, op, t)
  /\ parse_value (q ++ t ++ q) = t.
Proof.
  intros Hf Hfe Hop Hq Ht Hs Hn Hu. repeat split.
  - pose proof (parse_well_formed "" field " " op (" " ++ q ++ t ++ q)) as H.
    rewrite (strip_quoted " " q t), parse_value_quoted in H by auto.
    apply H; auto using quote_notnewline.
    destruct (quote_cases q Hq) as [-> | ->]; discriminate.
  - pose proof (parse_well_formed "" field " " op (" " ++ t)) as H.
    rewrite strip_lead_space, Hs in H.
    rewrite (parse_value_plain t), Hs in H by now rewrite Hs.
    apply H; auto.
  - now apply parse_value_quoted.
Qed.

Lemma quoted_and_unquoted_agree_witness :
  parse_query_string (VStr ("name" ++ " " ++ "==" ++ " " ++ dquote ++ "Bob" ++ dquote))
  = Some ("name", "==", "Bob")
  /\ parse_query_string (VStr ("name" ++ " " ++ "==" ++ " " ++ "Bob"))
     = Some ("name", "==", "Bob")
  /\ parse_value (dquote ++ "Bob" ++ dquote) = "Bob".
Proof.
  apply (quoted_and_unquoted_agree "name" "==" dquote "Bob");
    solve [reflexivity | discriminate | simpl; auto 10].
Defined.

(** No escape is processed between the quotes: a backslash stays. *)
Example parse_value_keeps_backslash :
  parse_value (dquote ++ "a\b" ++ dquote) = "a\b".
Proof. reflexivity. Qed.

(** Two-character operators come first among the alternatives: followed
    by a value, each is taken whole. *)
Lemma two_character_operator_first field ws op raw :
  all isword field = true -> field <> "" -> all isspace ws = true ->
  In op ["=="; "!="; ">="; "<="] ->
  strip raw <> "" -> all notnewline (strip raw) = true ->
  parse_query_string (VStr (field ++ ws ++ op ++ raw))
  = Some (field, op, parse_value (strip raw)).
Proof.
  intros Hf Hfe Hws Hop Hv Hn.
  apply (parse_well_formed "" field ws op raw); auto.
  - unfold operators. simpl in *. intuition.
  - simpl in Hop. intros [-> | ->]; intuition discriminate.
Qed.

(** C7 fails on the code.  With nothing after [>=] or [<=] the match of
    the two-character operator is given up, and the one-character operator
    is taken with [=] as the value. *)
Theorem operator_prefix_taken_when_value_missing :
  parse_query_string (VStr "age >=") = Some ("age", ">", "=")
  /\ parse_query_string (VStr "age <= ") = Some ("age", "<", "=")
  /\ parse_query_string (VStr "age ==") = None.
Proof. repeat split. Qed.

(** C9.  A value segment that is one quote character parses to the empty
    text: the character is both the opening and the closing quote. *)
Theorem lone_quote_is_empty_value field ws op ws' q :
  all isword field = true -> field <> "" ->
  all isspace ws = true -> In op operators -> all isspace ws' = true ->
  In q [dquote; squote] ->
  parse_query_string (VStr (field ++ ws ++ op ++ ws' ++ q)) = Some (field, op, "").
Proof.
  intros Hf Hfe Hws Hop Hws' Hq.
  pose proof (parse_well_formed "" field ws op (ws' ++ q)) as H.
  assert (Hstrip : strip (ws' ++ q) = q).
  { pose proof (strip_core ws' "" q "") as E. cbn [append] in E.
    rewrite app_empty_r in E. apply E; auto;
      destruct (quote_cases q Hq) as [-> | ->]; (reflexivity || discriminate). }
  rewrite Hstrip in H.
  replace (parse_value q) with "" in H
    by (destruct (quote_cases q Hq) as [-> | ->]; reflexivity).
  apply H; auto.
  - destruct (quote_cases q Hq) as [-> | ->]; discriminate.
  - destruct (quote_cases q Hq) as [-> | ->]; reflexivity.
  - intros _. unfold startswith.
    destruct ws' as [|c w]; [destruct (quote_cases q Hq) as [-> | ->]; reflexivity |].
    simpl in Hws'. apply andb_true_iff in Hws' as [Hc _].
    cbn [append prefix]. destruct (ascii_dec "=" c) as [<-|]; [discriminate | reflexivity].
Qed.

Lemma lone_quote_is_empty_value_witness :
  parse_query_string (VStr ("x" ++ " " ++ "==" ++ " " ++ dquote)) = Some ("x", "==", "").
Proof.
  apply (lone_quote_is_empty_value "x" " " "==" " " dquote);
    solve [reflexivity | discriminate | simpl; auto 10].
Defined.

(** ** Coercion *)

Lemma float_of_str_raises s e : float_of_str s = Raise e -> e = could_not_convert s.
Proof.
  unfold float_of_str.
  destruct (drop_underscores _ _) as [t|]; [|congruence].
  destruct (sign t) as [neg u].
  destruct (_ || _); [discriminate |].
  destruct (_ =? _); [discriminate |].
  destruct (decimal neg u); congruence.
Qed.

Lemma same_outcome_refl r : same_outcome r r.
Proof. destruct r; reflexivity. Qed.

Lemma eval_total_extends : extends_fragment eval_total.
Proof.
  intros source g r H. unfold eval_total. rewrite H. apply same_outcome_refl.
Qed.

Section CoercionFacts.
Variable py_eval : string -> namespace -> result object.

Let coerce := parse_numeric_value py_eval.

(** Coercing text gives a float or the [ValueError] of the function. *)
Lemma coerce_text s :
  (exists f, coerce (VStr s) = Ok f)
  \/ coerce (VStr s) = Raise (cannot_parse (VStr (strip s))).
Proof.
  unfold coerce, parse_numeric_value. cbn [isinstance_int_float].
  destruct (float_of_str (strip s)) as [f|e] eqn:E; [eauto |].
  apply float_of_str_raises in E. subst e. cbn [is_ValueError kind could_not_convert].
  destruct (eval_numeric py_eval (strip s)); eauto.
Qed.

(** Coercion fails with a [ValueError], but for an [int] beyond the
    floats. *)
Lemma coerce_cases v :
  (exists f, coerce v = Ok f)
  \/ (exists m, coerce v = Raise (Exn ValueError m))
  \/ (exists z m, v = VInt z /\ coerce v = Raise (Exn OverflowError m)).
Proof.
  destruct v as [|b|z|f|s|l|d].
  - right; left. eexists. reflexivity.
  - left. eexists. reflexivity.
  - unfold coerce, parse_numeric_value.
    cbn [isinstance_int_float float_of_number]. unfold float_of_int.
    destruct (is_inf (round_Z z)); [right; right | left]; eauto.
  - left. eexists. reflexivity.
  - destruct (coerce_text s) as [H | H]; [left | right; left]; eauto.
  - right; left. eexists. reflexivity.
  - right; left. eexists. reflexivity.
Qed.

(** Where coercion raises a [ValueError], an ordering test is false. *)
Lemma numeric_test_false cmp nv x m :
  coerce x = Raise (Exn ValueError m) ->
  numeric_test py_eval cmp nv x = Ok false.
Proof.
  unfold coerce. intros H. unfold numeric_test, is_numeric_value. now rewrite H.
Qed.

(** An ordering test holds only of a value that coerces and compares. *)
Lemma numeric_test_true cmp nv x :
  numeric_test py_eval cmp nv x = Ok true ->
  exists f, coerce x = Ok f /\ cmp f nv = true.
Proof.
  unfold coerce, numeric_test, is_numeric_value.
  destruct (parse_numeric_value py_eval x) as [f|e]; cbn.
  - intros [= H]. eauto.
  - destruct (is_ValueError_or_TypeError e); cbn; discriminate.
Qed.

(** An ordering test never raises on text. *)
Lemma numeric_test_text cmp nv s :
  exists b, numeric_test py_eval cmp nv (VStr s) = Ok b.
Proof.
  unfold numeric_test, is_numeric_value.
  destruct (coerce_text s) as [[f H] | H]; unfold coerce in H; rewrite H; cbn; eauto.
Qed.

(** What an ordering operator builds. *)
Lemma build_ordering field op v nv :
  is_ordering op = true -> coerce v = Ok nv ->
  exists cmp, build_tinydb_query py_eval field op v
              = Ok (Query field (numeric_test py_eval cmp nv)).
Proof.
  unfold coerce, build_tinydb_query. intros Hop ->. rewrite Hop.
  unfold is_ordering in Hop. cbn [existsb] in Hop.
  destruct (op =? ">"); [eauto |].
  destruct (op =? ">="); [eauto |].
  destruct (op =? "<"); [eauto |].
  destruct (op =? "<="); [eauto | discriminate].
Qed.
End CoercionFacts.

(** Coercing text that is no decimal number, by what [eval] returns. *)
Lemma coerce_by_eval ev s r :
  extends_fragment ev ->
  float_of_str (strip s) = Raise (could_not_convert (strip s)) ->
  eval_fragment (strip s) safe_namespace = Some r ->
  parse_numeric_value ev (VStr s)
  = match (o <- r ;;
           match o with
           | OValue v =>
               if isinstance_int_float v then float_of_number v
               else Raise (Exn ValueError (Text ""))
           | _ => Raise (Exn ValueError (Text ""))
           end) with
    | Ok f => Ok f
    | Raise _ => Raise (cannot_parse (VStr (strip s)))
    end.
Proof.
  intros H Hf He. unfold parse_numeric_value, eval_numeric.
  cbn [isinstance_int_float]. rewrite Hf.
  cbn [is_ValueError kind could_not_convert].
  specialize (H _ _ _ He). unfold same_outcome in H.
  destruct r as [o|e], (ev (strip s) safe_namespace) as [o'|e'];
    try contradiction; [now subst | reflexivity].
Qed.

(** The examples of coercion: decimal text, arithmetic, a constant of
    [math], and a name that is none. *)
Lemma coerce_examples ev :
  extends_fragment ev ->
  parse_numeric_value ev (VStr "3.14") = Ok (S754_finite false 7070651414971679 (-51))
  /\ floor_scaled (S754_finite false 7070651414971679 (-51)) 100 = Some 314%Z
  /\ parse_numeric_value ev (VStr "2+3") = Ok (S754_finite false 5629499534213120 (-50))
  /\ float_eq_int (S754_finite false 5629499534213120 (-50)) 5 = true
  /\ parse_numeric_value ev (VStr "math.pi") = Ok math_pi
  /\ floor_scaled math_pi 100000 = Some 314159%Z
  /\ parse_numeric_value ev (VStr "abc") = Raise (cannot_parse (VStr "abc")).
Proof.
  intros H. repeat split.
  - rewrite (coerce_by_eval ev "2+3" (Ok (OValue (VInt 5)))); auto.
  - rewrite (coerce_by_eval ev "math.pi" (Ok (OValue (VFloat math_pi)))); auto.
  - rewrite (coerce_by_eval ev "abc" (Raise (name_error "abc"))); auto.
Qed.

(** A value that is a number already coerces to itself as a float, an
    [int] as long as it rounds to a finite float. *)
Lemma coerce_number ev :
  (forall f, parse_numeric_value ev (VFloat f) = Ok f)
  /\ (forall b, parse_numeric_value ev (VBool b) = Ok (float_of_bool b))
  /\ (forall z, is_inf (round_Z z) = false ->
                parse_numeric_value ev (VInt z) = Ok (round_Z z)).
Proof.
  repeat split. intros z Hz. unfold parse_numeric_value.
  cbn [isinstance_int_float float_of_number]. unfold float_of_int. now rewrite Hz.
Qed.

(** ** The claims on coercion and on the predicates *)

(** C1 fails on the code.  An [int] beyond the floats does not coerce, and
    an ordering predicate run on a document that holds one raises
    [OverflowError]: [is_numeric_value] lets through what is neither a
    [ValueError] nor a [TypeError]. *)
Theorem ordering_predicate_raises_on_huge_int ev :
  exists q,
    build_tinydb_query ev "age" ">" (VStr "30") = Ok q
    /\ (forall f, parse_numeric_value ev (VInt (2 ^ 1024)) <> Ok f)
    /\ run q [("age", VInt (2 ^ 1024))]
       = Raise (Exn OverflowError (Text "int too large to convert to float")).
Proof.
  eexists. split; [reflexivity |]. split.
  - intros f. vm_compute. discriminate.
  - vm_compute. reflexivity.
Qed.

(** The same number written as text in the document does not raise: the
    [except] around [eval] turns the overflow into a [ValueError]. *)
Lemma ordering_predicate_on_huge_text ev :
  extends_fragment ev ->
  exists q,
    build_tinydb_query ev "age" ">" (VStr "30") = Ok q
    /\ run q [("age", VStr "2**1024")] = Ok false
    /\ run q [("age", VStr "N/A")] = Ok false.
Proof.
  intros H. eexists. split; [reflexivity |].
  cbn [run path lookup String.eqb Ascii.eqb Bool.eqb test].
  split.
  - apply numeric_test_false with (m := message (cannot_parse (VStr "2**1024"))).
    rewrite (coerce_by_eval ev "2**1024" (Ok (OValue (VInt (2 ^ 1024))))); auto.
  - apply numeric_test_false with (m := message (cannot_parse (VStr "N/A"))).
    rewrite (coerce_by_eval ev "N/A" (Raise (name_error "N"))); auto.
Qed.

(** C8 fails on the code.  An [int] is a number already, and one beyond
    the floats does not coerce: [float] raises [OverflowError], which the
    function lets through. *)
Theorem coercion_raises_on_huge_int ev :
  isinstance_int_float (VInt (2 ^ 1024)) = true
  /\ parse_numeric_value ev (VInt (2 ^ 1024))
     = Raise (Exn OverflowError (Text "int too large to convert to float"))
  /\ is_numeric_value ev (VInt (2 ^ 1024))
     = Raise (Exn OverflowError (Text "int too large to convert to float")).
Proof. repeat split; vm_compute; reflexivity. Qed.

(** C2 fails on the code.  [eval] takes more than the four operators and
    the names of [math]: a power, a remainder and the constant [True] all
    coerce. *)
Theorem coercion_accepts_more_than_arithmetic ev :
  extends_fragment ev ->
  parse_numeric_value ev (VStr "2**3") = Ok (S754_finite false 4503599627370496 (-49))
  /\ float_eq_int (S754_finite false 4503599627370496 (-49)) 8 = true
  /\ parse_numeric_value ev (VStr "7%3") = Ok fone
  /\ parse_numeric_value ev (VStr "True") = Ok fone.
Proof.
  intros H. repeat split.
  - rewrite (coerce_by_eval ev "2**3" (Ok (OValue (VInt 8)))); auto.
  - rewrite (coerce_by_eval ev "7%3" (Ok (OValue (VInt 1)))); auto.
  - rewrite (coerce_by_eval ev "True" (Ok (OValue (VBool true)))); auto.
Qed.

Lemma coercion_accepts_more_than_arithmetic_witness :
  parse_numeric_value eval_total (VStr "2**3")
  = Ok (S754_finite false 4503599627370496 (-49))
  /\ float_eq_int (S754_finite false 4503599627370496 (-49)) 8 = true
  /\ parse_numeric_value eval_total (VStr "7%3") = Ok fone
  /\ parse_numeric_value eval_total (VStr "True") = Ok fone.
Proof.
  apply (coercion_accepts_more_than_arithmetic eval_total).
  intros source g r H. unfold eval_total. rewrite H. destruct r; reflexivity.
Defined.

(** Equality with text holds of that text only. *)
Lemma py_eq_text v s : py_eq v (VStr s) = true <-> v = VStr s.
Proof.
  destruct v; simpl; try (split; [discriminate | congruence]).
  rewrite String.eqb_eq. split; congruence.
Qed.

Lemma lookup_head {A} k (a : A) d : lookup k ((k, a) :: d) = Some a.
Proof. simpl. now rewrite String.eqb_refl. Qed.

(** C3.  Equality compares the value of the field with the query text as
    they are: text ["5"] equals the query value ["5"], the number 5 does
    not, and [!=] is the opposite. *)
Theorem equality_is_type_sensitive ev field :
  (exists q,
      build_tinydb_query ev field "==" (VStr "5") = Ok q
      /\ test q (VStr "5") = Ok true
      /\ test q (VInt 5) = Ok false
      /\ test q (VFloat (round_Z 5)) = Ok false
      /\ (forall doc, run q ((field, VStr "5") :: doc) = Ok true)
      /\ (forall doc, run q ((field, VInt 5) :: doc) = Ok false))
  /\ (exists q,
      build_tinydb_query ev field "!=" (VStr "5") = Ok q
      /\ test q (VStr "5") = Ok false
      /\ test q (VInt 5) = Ok true
      /\ test q (VFloat (round_Z 5)) = Ok true
      /\ (forall doc, run q ((field, VStr "5") :: doc) = Ok false)
      /\ (forall doc, run q ((field, VInt 5) :: doc) = Ok true)).
Proof.
  split; eexists; (split; [reflexivity |]);
    repeat split; intros; unfold run; cbn [path test]; rewrite lookup_head;
    reflexivity.
Qed.

(** With an ordering operator, a query value that is not an [int] and does
    not coerce makes the builder raise the [ValueError] on numeric
    operators: no predicate is built. *)
Lemma build_rejects_non_numeric ev field op v :
  is_ordering op = true ->
  (forall z, v <> VInt z) ->
  (forall f, parse_numeric_value ev v <> Ok f) ->
  exists m,
    build_tinydb_query ev field op v
    = Raise (Exn ValueError (Join (Text numeric_operators_require) m)).
Proof.
  intros Hop Hint Hno. unfold build_tinydb_query. rewrite Hop.
  destruct (coerce_cases ev v) as [[f H] | [[m H] | (z & m & Hz & _)]].
  - now apply Hno in H.
  - rewrite H. cbn. eauto.
  - now apply Hint in Hz.
Qed.

Lemma build_rejects_non_numeric_witness :
  exists m,
    build_tinydb_query eval_total "age" ">" (VStr "abc")
    = Raise (Exn ValueError (Join (Text numeric_operators_require) m)).
Proof.
  apply (build_rejects_non_numeric eval_total "age" ">" (VStr "abc")).
  - reflexivity.
  - intros z. discriminate.
  - intros f. vm_compute. discriminate.
Defined.

(** C4 fails on the code.  An [int] beyond the floats is a query value that
    does not coerce, and with an ordering operator the builder does fail
    when it is called, but with the [OverflowError] of [float]: its
    [except ValueError] lets it through, and the [ValueError] on numeric
    operators is not raised. *)
Theorem build_raises_overflow_on_huge_int ev field :
  let overflow := Exn OverflowError (Text "int too large to convert to float") in
  (forall f, parse_numeric_value ev (VInt (2 ^ 1024)) <> Ok f)
  /\ build_tinydb_query ev field ">" (VInt (2 ^ 1024)) = Raise overflow
  /\ build_tinydb_query ev field ">=" (VInt (2 ^ 1024)) = Raise overflow
  /\ build_tinydb_query ev field "<" (VInt (2 ^ 1024)) = Raise overflow
  /\ build_tinydb_query ev field "<=" (VInt (2 ^ 1024)) = Raise overflow
  /\ is_ValueError overflow = false.
Proof.
  assert (H : parse_numeric_value ev (VInt (2 ^ 1024))
              = Raise (Exn OverflowError (Text "int too large to convert to float")))
    by (vm_compute; reflexivity).
  cbv zeta. repeat split;
    try (unfold build_tinydb_query;
         cbn [is_ordering existsb String.eqb Ascii.eqb Bool.eqb orb];
         rewrite H; reflexivity).
  intros f. rewrite H. discriminate.
Qed.

(** The query [age > abc] is rejected when it is built. *)
Lemma age_greater_abc_rejected ev :
  extends_fragment ev ->
  parse_and_build_query ev (VStr "age > abc")
  = Raise (Exn ValueError (Join (Text numeric_operators_require)
                                (message (cannot_parse (VStr "abc"))))).
Proof.
  intros H.
  change (parse_and_build_query ev (VStr "age > abc"))
    with (build_tinydb_query ev "age" ">" (VStr "abc")).
  unfold build_tinydb_query. cbn [is_ordering existsb String.eqb Ascii.eqb Bool.eqb orb].
  now rewrite (coerce_by_eval ev "abc" (Raise (name_error "abc"))).
Qed.

(** C10.  A [bool] is an [int]: [True] coerces to 1.0 and [False] to 0.0,
    every [bool] is numeric, and [< 2] holds of [True]. *)
Theorem booleans_are_numeric ev :
  parse_numeric_value ev (VBool true) = Ok fone
  /\ parse_numeric_value ev (VBool false) = Ok fzero
  /\ float_eq_int fone 1 = true
  /\ float_eq_int fzero 0 = true
  /\ (forall b, is_numeric_value ev (VBool b) = Ok true)
  /\ exists q,
       build_tinydb_query ev "flag" "<" (VStr "2") = Ok q
       /\ test q (VBool true) = Ok true
       /\ run q [("flag", VBool true)] = Ok true.
Proof.
  repeat split.
  eexists. split; [reflexivity |]. split; reflexivity.
Qed.

(** * More on the parser *)

Lemma prefix_split l s : prefix l s = true -> s = l ++ drop (length l) s.
Proof.
  revert s. induction l as [|c l IH]; intros s H; [reflexivity |].
  destruct s as [|c' s]; [discriminate |]. cbn [prefix] in H.
  destruct (ascii_dec c c') as [<-|]; [|discriminate].
  cbn [length drop append]. f_equal. auto.
Qed.

Lemma orelse_some {A} (a b : option A) m :
  orelse a b = Some m -> a = Some m \/ (a = None /\ b = Some m).
Proof. destruct a; simpl; auto. Qed.

Lemma group_lit_sound {A} i l p s g (k : mstate -> option A) m :
  rmatch (Group i (Lit l)) (MState p s g) k = Some m ->
  exists r, s = l ++ r /\ k (MState (p + length l) r ((i, l) :: g)) = Some m.
Proof.
  intros H. destruct (prefix l s) eqn:E.
  - apply prefix_split in E. exists (drop (length l) s). split; [exact E |].
    rewrite E in H. now rewrite group_lit in H.
  - now rewrite group_lit_fail in H.
Qed.

(** A match of the operator and what follows took one of the six
    operators, and the rest matched what follows. *)
Lemma operator_then_sound {A} R p s g (k : mstate -> option A) m :
  rmatch (Group 2 operator_re +> R)%re (MState p s g) k = Some m ->
  exists op r, In op operators /\ s = op ++ r
               /\ rmatch R (MState (p + length op) r ((2, op) :: g)) k = Some m.
Proof.
  rewrite rmatch_seq. unfold operator_re. rewrite !group_alt. unfold operators.
  intros H.
  repeat match type of H with
  | orelse _ _ = Some _ => apply orelse_some in H as [H | [_ H]]
  end;
  apply group_lit_sound in H as (r & -> & H);
  match type of H with
  | rmatch R (MState (p + length ?l) _ _) _ = _ => exists l, r
  end; (split; [simpl; auto 10 | split; [reflexivity | exact H]]).
Qed.

Lemma length_rstrip y : (length (rstrip y) <= length y)%nat.
Proof.
  destruct (rstrip_spec y) as (w & E & _). rewrite E at 2. rewrite length_app. lia.
Qed.

(** Trimmed text does not end with white space. *)
Lemma strip_no_trailing_space s x c :
  strip s = x ++ String c "" -> isspace c = false.
Proof.
  intros E. destruct (isspace c) eqn:Hc; [|reflexivity].
  destruct (strip_spec s) as (_ & _ & _ & _ & _ & _ & Hi).
  rewrite E in Hi. rewrite rstrip_app_space in Hi by (simpl; now rewrite Hc).
  pose proof (length_rstrip x) as L. rewrite Hi, length_app in L. simpl in L. lia.
Qed.

Lemma parse_value_strip a : parse_value (strip a) = parse_value a.
Proof. now rewrite !parse_value_unfold, strip_idem. Qed.

(** What a successful parse matched, group by group. *)
Lemma parse_match s field op v :
  parse_query_string (VStr s) = Some (field, op, v) ->
  all isword field = true /\ (1 <= length field)%nat
  /\ In op operators
  /\ exists ws ws' a b,
       strip s = field ++ ws ++ op ++ ws' ++ a ++ b
       /\ all isspace ws = true /\ all isspace ws' = true
       /\ a <> "" /\ all notnewline a = true
       /\ (b = "" \/ b = newline)
       /\ v = parse_value (strip a).
Proof.
  unfold parse_query_string.
  destruct (s =? ""); [discriminate |].
  destruct (strip s =? ""); [discriminate |].
  destruct (re_match pattern (strip s)) as [m|] eqn:E; [|discriminate].
  rewrite re_match_pattern in E.
  pose proof (span_spec isword (strip s)) as H1.
  destruct (span isword (strip s)) as [f r1].
  pose proof (span_spec isspace r1) as H2.
  destruct (span isspace r1) as [w r2].
  destruct H1 as (H1 & Hf & _). destruct H2 as (H2 & Hw & _).
  destruct (1 <=? length f)%nat eqn:Hlen; [|discriminate].
  apply Nat.leb_le in Hlen.
  apply operator_then_sound in E as (o & r & Ho & Hr & E).
  apply value_sound in E as (w' & a & b & Hr' & Hw' & Ha & Hn & Hb & ->).
  cbn [group Nat.eqb].
  destruct (_ || _); [discriminate |]. intros [= <- <- <-].
  repeat split; auto.
  exists w, w', a, b. repeat split; auto. congruence.
Qed.

(** X1.  What [parse_query_string] returns is read off the trimmed text:
    the field is a non-empty run of word characters at its start, the
    operator is one of the six, and the value is [parse_value] of the
    non-empty rest, which has no line feed. *)
Theorem parse_query_string_sound s field op v :
  parse_query_string (VStr s) = Some (field, op, v) ->
  field <> "" /\ all isword field = true
  /\ In op operators
  /\ exists ws ws' a,
       strip s = field ++ ws ++ op ++ ws' ++ a
       /\ all isspace ws = true /\ all isspace ws' = true
       /\ a <> "" /\ all notnewline a = true
       /\ v = parse_value a.
Proof.
  intros H.
  apply parse_match in H
    as (Hf & Hlen & Hop & w & w' & a & b & Hs & Hw & Hw' & Ha & Hn & Hb & ->).
  assert (b = "") as ->.
  { destruct Hb as [-> | ->]; [reflexivity | exfalso].
    assert (isspace "010" = false); [|discriminate].
    apply (strip_no_trailing_space s (field ++ w ++ op ++ w' ++ a)).
    rewrite Hs. now rewrite !app_assoc. }
  rewrite app_empty_r in Hs.
  repeat split; auto.
  - intros ->. simpl in Hlen. lia.
  - exists w, w', a. repeat split; auto. apply parse_value_strip.
Qed.

Lemma parse_query_string_sound_witness :
  "age" <> "" /\ all isword "age" = true
  /\ In ">=" operators
  /\ exists ws ws' a,
       strip " age >= 21 " = "age" ++ ws ++ ">=" ++ ws' ++ a
       /\ all isspace ws = true /\ all isspace ws' = true
       /\ a <> "" /\ all notnewline a = true
       /\ "21" = parse_value a.
Proof.
  apply (parse_query_string_sound " age >= 21 " "age" ">=" "21"). reflexivity.
Defined.

(** White space around text does not change what is left when it is
    trimmed. *)
Lemma strip_padded pad s pad' :
  all isspace pad = true -> all isspace pad' = true ->
  strip (pad ++ s ++ pad') = strip s.
Proof.
  intros Hp Hp'.
  destruct (strip_spec s) as (w & w' & E & Hw & Hw' & Hs & Hi).
  destruct (strip s) as [|c t] eqn:Ec.
  - apply strip_space. rewrite E. cbn [append].
    now rewrite !all_app, Hp, Hw, Hw', Hp'.
  - rewrite E at 1.
    replace (pad ++ (w ++ String c t ++ w') ++ pad')
      with ((pad ++ w) ++ ("" ++ String c t) ++ (w' ++ pad'))
      by (change ("" ++ String c t) with (String c t); now rewrite !app_assoc).
    apply strip_core; auto; try discriminate; now rewrite all_app, ?Hp, ?Hw, ?Hw', ?Hp'.
Qed.

(** X2.  White space around a query does not matter. *)
Theorem parse_query_string_padding pad s pad' :
  all isspace pad = true -> all isspace pad' = true ->
  parse_query_string (VStr (pad ++ s ++ pad')) = parse_query_string (VStr s).
Proof.
  intros Hp Hp'. unfold parse_query_string. rewrite (strip_padded pad s pad') by auto.
  destruct (strip s =? "") eqn:E.
  - destruct (pad ++ s ++ pad' =? ""), (s =? ""); reflexivity.
  - destruct (pad ++ s ++ pad' =? "") eqn:E1.
    + apply eqb_empty_true in E1. destruct pad; [|discriminate].
      destruct s; [discriminate E | discriminate E1].
    + destruct (s =? "") eqn:E2; [|reflexivity].
      apply eqb_empty_true in E2. subst. discriminate.
Qed.

Lemma parse_query_string_padding_witness :
  parse_query_string (VStr ("  " ++ "age>=21" ++ " "))
  = parse_query_string (VStr "age>=21").
Proof.
  apply (parse_query_string_padding "  " "age>=21" " "); reflexivity.
Defined.

(** X3.  [parse_value] removes one pair of enclosing quotes of a kind and
    nothing else: it returns what is between them, the empty text for a lone
    quote, and in every other case, such as quotes that do not match, the
    trimmed text. *)
Theorem parse_value_cases s :
  (exists q t, In q [dquote; squote] /\ strip s = q ++ t ++ q /\ parse_value s = t)
  \/ (exists q, In q [dquote; squote] /\ strip s = q /\ parse_value s = "")
  \/ (quoted (strip s) = false /\ parse_value s = strip s
      /\ forall t, strip s <> dquote ++ t ++ dquote /\ strip s <> squote ++ t ++ squote).
Proof.
  destruct (quoted (strip s)) eqn:Q.
  - assert (exists q, In q [dquote; squote]
                      /\ startswith (strip s) q = true /\ endswith (strip s) q = true)
      as (q & Hq & Hs & He).
    { unfold quoted in Q. apply orb_true_iff in Q as [Q | Q];
        apply andb_true_iff in Q as [Hs He];
        [exists dquote | exists squote]; simpl; auto. }
    rewrite <- parse_value_strip.
    assert (Hq1 : exists c, q = String c "")
      by (destruct (quote_cases q Hq) as [-> | ->]; eexists; reflexivity).
    destruct Hq1 as (c & Ec). rewrite Ec in Hs, He.
    destruct (enclosed_split _ _ Hs He) as [E | [t E]]; rewrite <- Ec in E; rewrite E.
    + right; left. exists q. repeat split; auto.
      destruct (quote_cases q Hq) as [-> | ->]; reflexivity.
    + left. exists q, t. repeat split; auto. now apply parse_value_quoted.
  - right; right. repeat split; [now apply parse_value_plain | |];
      intros E; rewrite E in Q; unfold quoted in Q.
    + assert (H : startswith (dquote ++ t ++ dquote) dquote
                  && endswith (dquote ++ t ++ dquote) dquote = true).
      { apply andb_true_iff. split; [apply prefix_app |].
        unfold endswith. rewrite !length_app. cbn [length dquote].
        replace (1 + (length t + 1) - 1)%nat with (length (dquote ++ t))
          by (rewrite length_app; simpl; lia).
        rewrite <- app_assoc, drop_app. reflexivity. }
      rewrite H in Q. discriminate.
    + assert (H : startswith (squote ++ t ++ squote) squote
                  && endswith (squote ++ t ++ squote) squote = true).
      { apply andb_true_iff. split; [apply prefix_app |].
        unfold endswith. rewrite !length_app. cbn [length squote].
        replace (1 + (length t + 1) - 1)%nat with (length (squote ++ t))
          by (rewrite length_app; simpl; lia).
        rewrite <- app_assoc, drop_app. reflexivity. }
      rewrite H, orb_true_r in Q. discriminate.
Qed.

(** * More on coercion and on the builder *)

(** Comparing the other way round gives the opposite. *)
Lemma SFcompare_antisym x y c :
  SFcompare x y = Some c -> SFcompare y x = Some (CompOpp c).
Proof.
  destruct x as [sx|sx| |sx mx ex], y as [sy|sy| |sy my ey]; simpl;
    try discriminate; intros [= <-];
    try (destruct sx; reflexivity); try (destruct sy; reflexivity);
    try (destruct sx, sy; reflexivity).
  destruct sx, sy; try reflexivity;
    rewrite (Z.compare_antisym ex ey); destruct (ex ?= ey)%Z; simpl; try reflexivity;
    rewrite (Pos.compare_cont_antisym mx my Eq); reflexivity.
Qed.

Lemma float_gt_facts x y :
  float_gt x y = true ->
  float_ge x y = true /\ float_le x y = false /\ float_lt x y = false.
Proof.
  unfold float_gt, float_ge, float_le, float_lt, SFltb, SFleb.
  destruct (SFcompare y x) as [[]|] eqn:E; try discriminate. intros _.
  apply SFcompare_antisym in E. rewrite E. auto.
Qed.

Lemma float_lt_facts x y :
  float_lt x y = true ->
  float_le x y = true /\ float_ge x y = false /\ float_gt x y = false.
Proof.
  unfold float_gt, float_ge, float_le, float_lt, SFltb, SFleb.
  destruct (SFcompare x y) as [[]|] eqn:E; try discriminate. intros _.
  apply SFcompare_antisym in E. rewrite E. auto.
Qed.

Lemma compare_nan_r x : SFcompare x S754_nan = None.
Proof. now destruct x. Qed.

Section BuilderFacts.
Variable py_eval : string -> namespace -> result object.

Let coerce := parse_numeric_value py_eval.
Let build := build_tinydb_query py_eval.

(** What was built for an ordering operator: the query value coerced, and
    the test of that operator. *)
Lemma build_ordering_inv field op v q :
  is_ordering op = true -> build field op v = Ok q ->
  exists nv, coerce v = Ok nv
    /\ ((op = ">" /\ q = Query field (numeric_test py_eval float_gt nv))
        \/ (op = ">=" /\ q = Query field (numeric_test py_eval float_ge nv))
        \/ (op = "<" /\ q = Query field (numeric_test py_eval float_lt nv))
        \/ (op = "<=" /\ q = Query field (numeric_test py_eval float_le nv))).
Proof.
  unfold build, coerce, build_tinydb_query. intros Hop. rewrite Hop.
  destruct (parse_numeric_value py_eval v) as [nv|e];
    [|destruct (is_ValueError e); discriminate].
  unfold is_ordering in Hop. cbn [existsb] in Hop.
  exists nv. split; [reflexivity |].
  destruct (op =? ">") eqn:E1; [apply String.eqb_eq in E1; injection H as <-; auto |].
  destruct (op =? ">=") eqn:E2; [apply String.eqb_eq in E2; injection H as <-; auto |].
  destruct (op =? "<") eqn:E3; [apply String.eqb_eq in E3; injection H as <-; auto |].
  destruct (op =? "<=") eqn:E4; [apply String.eqb_eq in E4; injection H as <-; auto 6 |].
  discriminate.
Qed.

(** The test of an ordering operator on a value that coerces. *)
Lemma numeric_test_ok cmp nv x f :
  coerce x = Ok f -> numeric_test py_eval cmp nv x = Ok (cmp f nv).
Proof.
  unfold coerce. intros H. unfold numeric_test, is_numeric_value. now rewrite H.
Qed.

End BuilderFacts.



(** X5.  The four ordering predicates built for one query value agree on
    every document value: where [>] holds, [>=] holds and [<=] and [<] do
    not; where [<] holds, [<=] holds and [>=] and [>] do not. *)
Theorem ordering_predicates_consistent ev field v qgt qge qlt qle x :
  build_tinydb_query ev field ">" v = Ok qgt ->
  build_tinydb_query ev field ">=" v = Ok qge ->
  build_tinydb_query ev field "<" v = Ok qlt ->
  build_tinydb_query ev field "<=" v = Ok qle ->
  (test qgt x = Ok true ->
   test qge x = Ok true /\ test qle x = Ok false /\ test qlt x = Ok false)
  /\ (test qlt x = Ok true ->
      test qle x = Ok true /\ test qge x = Ok false /\ test qgt x = Ok false).
Proof.
  unfold build_tinydb_query. cbn [is_ordering existsb String.eqb Ascii.eqb Bool.eqb orb].
  destruct (parse_numeric_value ev v) as [nv|e];
    [|destruct (is_ValueError e); discriminate].
  intros [= <-] [= <-] [= <-] [= <-]. cbn [test]. split; intros H.
  - apply numeric_test_true in H as (f & Hf & Hc).
    rewrite !(numeric_test_ok ev _ nv x f Hf).
    destruct (float_gt_facts _ _ Hc) as (-> & -> & ->). auto.
  - apply numeric_test_true in H as (f & Hf & Hc).
    rewrite !(numeric_test_ok ev _ nv x f Hf).
    destruct (float_lt_facts _ _ Hc) as (-> & -> & ->). auto.
Qed.

Lemma ordering_predicates_consistent_witness :
  let nv := S754_finite false 8444249301319680 (-48) in
  let q cmp := Query "age" (numeric_test eval_total cmp nv) in
  (test (q float_gt) (VInt 31) = Ok true ->
   test (q float_ge) (VInt 31) = Ok true /\ test (q float_le) (VInt 31) = Ok false
   /\ test (q float_lt) (VInt 31) = Ok false)
  /\ (test (q float_lt) (VInt 31) = Ok true ->
      test (q float_le) (VInt 31) = Ok true /\ test (q float_ge) (VInt 31) = Ok false
      /\ test (q float_gt) (VInt 31) = Ok false).
Proof.
  apply (ordering_predicates_consistent eval_total "age" (VStr "30")); reflexivity.
Defined.

(** X6.  With every ordering operator the query value [nan] is accepted:
    it is taken as a float, whatever [eval] does, and a predicate is built.
    That predicate holds of no document value. *)
Theorem nan_matches_nothing ev field op :
  is_ordering op = true ->
  exists q,
    build_tinydb_query ev field op (VStr "nan") = Ok q
    /\ path q = field
    /\ forall x, test q x <> Ok true.
Proof.
  intros Hop.
  assert (Hnan : parse_numeric_value ev (VStr "nan") = Ok S754_nan) by reflexivity.
  destruct (build_ordering ev field op (VStr "nan") S754_nan Hop Hnan) as (cmp0 & Hq).
  exists (Query field (numeric_test ev cmp0 S754_nan)).
  split; [exact Hq |]. split; [reflexivity |].
  destruct (build_ordering_inv ev field op _ _ Hop Hq) as (nv & Hnv & H).
  assert (nv = S754_nan) as -> by congruence.
  assert (forall f, cmp0 f S754_nan = false) as Hc.
  { assert (E : forall c c', Query field (numeric_test ev c S754_nan)
                             = Query field (numeric_test ev c' S754_nan) ->
                             forall f x, parse_numeric_value ev x = Ok f ->
                                         c f S754_nan = c' f S754_nan).
    { intros c c' [= E] f x Hx.
      assert (E' : numeric_test ev c S754_nan x = numeric_test ev c' S754_nan x)
        by now rewrite E.
      rewrite !(numeric_test_ok ev _ _ x f Hx) in E'. congruence. }
    intros f.
    destruct H as [[_ H] | [[_ H] | [[_ H] | [_ H]]]];
      rewrite (E _ _ H f (VFloat f) eq_refl);
      unfold float_gt, float_ge, float_lt, float_le, SFltb, SFleb;
      simpl; rewrite ?compare_nan_r; reflexivity. }
  intros x Ht. cbn [test] in Ht. apply numeric_test_true in Ht as (f & _ & Hf).
  rewrite Hc in Hf. discriminate.
Qed.

Lemma nan_matches_nothing_witness :
  exists q,
    build_tinydb_query eval_total "age" ">=" (VStr "nan") = Ok q
    /\ path q = "age"
    /\ forall x, test q x <> Ok true.
Proof.
  apply (nan_matches_nothing eval_total "age" ">="). reflexivity.
Defined.

Lemma not_operator_eqb op s : ~ In op operators -> In s operators -> (op =? s) = false.
Proof.
  intros Hn Hs. destruct (op =? s) eqn:E; [|reflexivity].
  apply String.eqb_eq in E. congruence.
Qed.

(** X7.  An operator that is none of the six is refused with a
    [ValueError] that names it, whatever the value is: the value is not
    coerced. *)
Theorem build_unsupported_operator ev field op v :
  ~ In op operators ->
  build_tinydb_query ev field op v
  = Raise (Exn ValueError (Join (Text "Unsupported operator: ") (Shown (VStr op)))).
Proof.
  intros Hn. unfold build_tinydb_query, build_equality, is_ordering. cbn [existsb].
  rewrite !(not_operator_eqb op) by (auto; unfold operators; simpl; auto 10).
  reflexivity.
Qed.

Lemma build_unsupported_operator_witness :
  build_tinydb_query eval_total "age" "=~" (VInt (2 ^ 1024))
  = Raise (Exn ValueError (Join (Text "Unsupported operator: ") (Shown (VStr "=~")))).
Proof.
  apply (build_unsupported_operator eval_total "age" "=~").
  unfold operators. simpl. intuition discriminate.
Defined.

(** X8.  [==] and [!=] are built for every value, with no coercion, on the
    field that was named; on every document value one test is the negation
    of the other, and on a document without the field both are false. *)
Theorem equality_and_inequality ev field v :
  exists qe qn,
    build_tinydb_query ev field "==" v = Ok qe
    /\ build_tinydb_query ev field "!=" v = Ok qn
    /\ path qe = field /\ path qn = field
    /\ (forall x, exists b, test qe x = Ok b /\ test qn x = Ok (negb b))
    /\ (forall doc, lookup field doc = None ->
                    run qe doc = Ok false /\ run qn doc = Ok false).
Proof.
  do 2 eexists. split; [reflexivity |]. split; [reflexivity |].
  cbn [path test]. repeat split; eauto.
  - unfold run. cbn [path]. now rewrite H.
  - unfold run. cbn [path]. now rewrite H.
Qed.

(** Coercion of text looks at the trimmed text only. *)
Lemma coerce_strip ev s :
  parse_numeric_value ev (VStr (strip s)) = parse_numeric_value ev (VStr s).
Proof. unfold parse_numeric_value. cbn [isinstance_int_float]. now rewrite strip_idem. Qed.

(** X9.  White space around text does not change what the text coerces
    to. *)
Theorem coercion_padding ev pad s pad' :
  all isspace pad = true -> all isspace pad' = true ->
  parse_numeric_value ev (VStr (pad ++ s ++ pad')) = parse_numeric_value ev (VStr s).
Proof.
  intros Hp Hp'.
  rewrite <- (coerce_strip ev (pad ++ s ++ pad')), <- (coerce_strip ev s).
  now rewrite strip_padded.
Qed.

Lemma coercion_padding_witness :
  parse_numeric_value eval_total (VStr (" " ++ "2+3" ++ "  "))
  = parse_numeric_value eval_total (VStr "2+3").
Proof. apply (coercion_padding eval_total " " "2+3" "  "); reflexivity. Defined.

(** X10.  Coercion fails in two ways only: with the [ValueError] of the
    function on what is not a number, text trimmed, and, for an [int], with
    the [OverflowError] of [float]. *)
Theorem coercion_failures ev v e :
  parse_numeric_value ev v = Raise e ->
  e = cannot_parse (match v with VStr s => VStr (strip s) | _ => v end)
  \/ (exists z, v = VInt z /\ is_inf (round_Z z) = true
                /\ e = Exn OverflowError (Text "int too large to convert to float")).
Proof.
  destruct v as [|b|z|f|s|l|d]; try (intros [= <-]; now left); try discriminate.
  - unfold parse_numeric_value. cbn [isinstance_int_float float_of_number].
    unfold float_of_int. destruct (is_inf (round_Z z)) eqn:E; [|discriminate].
    intros [= <-]. right. eauto.
  - destruct (coerce_text ev s) as [[f H] | H]; rewrite H; [discriminate |].
    intros [= <-]. now left.
Qed.

Lemma coercion_failures_witness :
  cannot_parse (VList []) = cannot_parse (VList [])
  \/ (exists z, VList [] = VInt z /\ is_inf (round_Z z) = true
                /\ cannot_parse (VList [])
                   = Exn OverflowError (Text "int too large to convert to float")).
Proof.
  apply (coercion_failures eval_total (VList []) (cannot_parse (VList []))).
  reflexivity.
Defined.

(** X11.  [is_numeric_value] returns a truth value on every value but an
    [int] beyond the floats, whatever [eval] does, and true exactly when
    the value coerces. *)
Theorem is_numeric_value_decides ev v :
  (forall z, v = VInt z -> is_inf (round_Z z) = false) ->
  exists b, is_numeric_value ev v = Ok b
            /\ (b = true <-> exists f, parse_numeric_value ev v = Ok f).
Proof.
  intros Hv. unfold is_numeric_value.
  destruct (coerce_cases ev v) as [[f H] | [[m H] | (z & m & -> & H)]]; rewrite H.
  - exists true. split; [reflexivity |]. split; eauto.
  - exists false. split; [reflexivity |].
    split; [discriminate | intros [f Hf]; discriminate].
  - exfalso. revert H. unfold parse_numeric_value.
    cbn [isinstance_int_float float_of_number]. unfold float_of_int.
    now rewrite (Hv z eq_refl).
Qed.

Lemma is_numeric_value_decides_witness :
  exists b, is_numeric_value eval_total (VStr "1e3") = Ok b
            /\ (b = true <-> exists f, parse_numeric_value eval_total (VStr "1e3") = Ok f).
Proof.
  apply (is_numeric_value_decides eval_total (VStr "1e3")).
  intros z H. discriminate H.
Defined.

(** * More on [parse_and_build_query] *)

Lemma parse_query_string_strip s :
  parse_query_string (VStr (strip s)) = parse_query_string (VStr s).
Proof.
  unfold parse_query_string. rewrite strip_idem.
  destruct (s =? "") eqn:E.
  - apply eqb_empty_true in E. now subst.
  - destruct (strip s =? ""); reflexivity.
Qed.

(** Building on a text value fails with a [ValueError] only. *)
Lemma build_text_fails ev field op s e :
  build_tinydb_query ev field op (VStr s) = Raise e -> kind e = ValueError.
Proof.
  unfold build_tinydb_query, build_equality.
  assert (E : (if (op =? "==") then Ok (Query field (fun x => Ok (py_eq x (VStr s))))
               else if (op =? "!=")
                    then Ok (Query field (fun x => Ok (negb (py_eq x (VStr s)))))
                    else Raise (Exn ValueError (Join (Text "Unsupported operator: ")
                                                     (Shown (VStr op))))) = Raise e ->
              kind e = ValueError).
  { destruct (op =? "=="); [discriminate |].
    destruct (op =? "!="); [discriminate |]. now intros [= <-]. }
  destruct (is_ordering op); [|exact E].
  destruct (coerce_text ev s) as [[f H] | H]; rewrite H.
  - destruct (op =? ">"); [discriminate |].
    destruct (op =? ">="); [discriminate |].
    destruct (op =? "<"); [discriminate |].
    destruct (op =? "<="); [discriminate | exact E].
  - cbn. now intros [= <-].
Qed.

(** Building a query from text that parses fails with a [ValueError]
    only. *)
Lemma parse_and_build_query_raises_ValueError_aux ev x e :
  parse_and_build_query ev x = Raise e -> kind e = ValueError.
Proof.
  unfold parse_and_build_query.
  destruct x as [| | | |s| |]; try (now intros [= <-]).
  destruct (s =? ""); [now intros [= <-] |].
  destruct (strip s =? ""); [now intros [= <-] |].
  destruct (parse_query_string (VStr (strip s))) as [[[f op] v]|];
    [apply build_text_fails | now intros [= <-]].
Qed.

(** X12.  Whatever its argument and whatever [eval] does,
    [parse_and_build_query] raises nothing but [ValueError], which is what
    the command catches around it: [is_ValueError] holds of the exception. *)
Theorem parse_and_build_query_raises_ValueError ev x e :
  parse_and_build_query ev x = Raise e ->
  kind e = ValueError /\ is_ValueError e = true.
Proof.
  intros H. apply parse_and_build_query_raises_ValueError_aux in H.
  unfold is_ValueError. now rewrite H.
Qed.

Lemma parse_and_build_query_raises_ValueError_witness :
  let e := invalid_query_format "age" in
  kind e = ValueError /\ is_ValueError e = true.
Proof.
  apply (parse_and_build_query_raises_ValueError eval_total (VStr " age ")).
  reflexivity.
Defined.

(** X13.  Of a query that parses, [parse_and_build_query] builds the
    condition on the parsed field, operator and value.  [==] and [!=]
    always build; an ordering operator builds when the value coerces and
    is refused with the [ValueError] on numeric operators when it does
    not.  The operator is never unsupported. *)
Theorem parse_and_build_query_outcome ev s field op v :
  parse_query_string (VStr s) = Some (field, op, v) ->
  parse_and_build_query ev (VStr s) = build_tinydb_query ev field op (VStr v)
  /\ (is_ordering op = false ->
      exists q, parse_and_build_query ev (VStr s) = Ok q /\ path q = field)
  /\ (is_ordering op = true ->
      (exists q nv, parse_and_build_query ev (VStr s) = Ok q /\ path q = field
                    /\ parse_numeric_value ev (VStr v) = Ok nv)
      \/ parse_and_build_query ev (VStr s)
         = Raise (Exn ValueError
                    (Join (Text numeric_operators_require)
                          (message (cannot_parse (VStr (strip v))))))).
Proof.
  intros H.
  assert (E : parse_and_build_query ev (VStr s)
              = build_tinydb_query ev field op (VStr v)).
  { unfold parse_and_build_query.
    destruct (s =? "") eqn:E1.
    { apply eqb_empty_true in E1. subst. discriminate. }
    destruct (strip s =? "") eqn:E2.
    { apply eqb_empty_true in E2. rewrite <- parse_query_string_strip, E2 in H.
      discriminate. }
    now rewrite parse_query_string_strip, H. }
  rewrite E. split; [reflexivity |].
  apply parse_match in H as (_ & _ & Hop & _).
  split; intros Ho.
  - unfold build_tinydb_query, build_equality. rewrite Ho.
    unfold operators in Hop. simpl in Hop.
    destruct Hop as [<-|[<-|[<-|[<-|[<-|[<-|[]]]]]]]; try discriminate;
      eexists; split; reflexivity.
  - destruct (coerce_text ev v) as [[nv Hv] | Hv].
    + left. destruct (build_ordering ev field op (VStr v) nv Ho Hv) as (cmp & ->).
      eauto.
    + right. unfold build_tinydb_query. now rewrite Ho, Hv.
Qed.

Lemma parse_and_build_query_outcome_witness :
  parse_and_build_query eval_total (VStr " age > abc ")
  = build_tinydb_query eval_total "age" ">" (VStr "abc").
Proof.
  apply (parse_and_build_query_outcome eval_total " age > abc " "age" ">" "abc").
  reflexivity.
Defined.

(** * The command *)

(** A search that returns has run the condition on every document without
    an exception, and returns the documents it holds of, in their order. *)
Lemma search_ok docs cond matching :
  search docs cond = Ok matching ->
  matching = filter (holds cond) docs
  /\ Forall (fun doc => exists b, run cond doc = Ok b) docs.
Proof.
  revert matching. induction docs as [|doc docs IH]; intros matching; simpl.
  - intros [= <-]. auto.
  - unfold holds at 1. destruct (run cond doc) as [b|e] eqn:E; [|discriminate].
    cbn [bind]. destruct (search docs cond) as [m|e]; [|discriminate].
    cbn [bind]. intros [= <-]. destruct (IH m eq_refl) as (-> & HF).
    split; [now destruct b | constructor; eauto].
Qed.

(** An exception of a search is one of the condition on a document. *)
Lemma search_raises docs cond e :
  search docs cond = Raise e -> exists doc, In doc docs /\ run cond doc = Raise e.
Proof.
  induction docs as [|doc docs IH]; simpl; [discriminate |].
  destruct (run cond doc) as [b|e'] eqn:E; cbn [bind].
  - destruct (search docs cond) as [m|e'']; cbn [bind]; [discriminate |].
    intros [= <-]. destruct IH as (d & Hd & Hr); eauto.
  - intros [= <-]. eauto.
Qed.

(** The one exception the test of an ordering operator raises is the
    [OverflowError] of [float]. *)
Lemma numeric_test_raises ev cmp nv x e :
  numeric_test ev cmp nv x = Raise e -> kind e = OverflowError.
Proof.
  unfold numeric_test, is_numeric_value.
  destruct (coerce_cases ev x) as [[f H] | [[m H] | (z & m & -> & H)]]; rewrite H; cbn;
    try discriminate. now intros [= <-].
Qed.

(** The one exception a condition built from a query string raises on a
    document is that [OverflowError]. *)
Lemma built_condition_raises ev s q doc e :
  parse_and_build_query ev s = Ok q -> run q doc = Raise e ->
  kind e = OverflowError.
Proof.
  intros Hq Hr.
  assert (Ht : forall x, test q x = Raise e -> kind e = OverflowError).
  { revert Hq. unfold parse_and_build_query.
    destruct s as [| | | |t| |]; try discriminate.
    destruct (t =? ""); [discriminate |].
    destruct (strip t =? ""); [discriminate |].
    destruct (parse_query_string (VStr (strip t))) as [[[f op] v]|]; [|discriminate].
    unfold build_tinydb_query, build_equality.
    assert (E : (if (op =? "==") then Ok (Query f (fun x => Ok (py_eq x (VStr v))))
                 else if (op =? "!=")
                      then Ok (Query f (fun x => Ok (negb (py_eq x (VStr v)))))
                      else Raise (Exn ValueError (Join (Text "Unsupported operator: ")
                                                       (Shown (VStr op))))) = Ok q ->
                forall x, test q x = Raise e -> kind e = OverflowError).
    { destruct (op =? "=="); [intros [= <-]; discriminate |].
      destruct (op =? "!="); [intros [= <-]; discriminate | discriminate]. }
    destruct (is_ordering op); [|exact E].
    destruct (parse_numeric_value ev (VStr v)) as [nv|e'];
      [|destruct (is_ValueError e'); discriminate].
    destruct (op =? ">"); [intros [= <-] x; apply numeric_test_raises |].
    destruct (op =? ">="); [intros [= <-] x; apply numeric_test_raises |].
    destruct (op =? "<"); [intros [= <-] x; apply numeric_test_raises |].
    destruct (op =? "<="); [intros [= <-] x; apply numeric_test_raises | exact E]. }
  unfold run in Hr. destruct (lookup (path q) doc); [eauto | discriminate].
Qed.

(** The classes of the exceptions of the functions above. *)
Lemma OverflowError_is_Exception other_bases e :
  kind e = OverflowError -> isinstance other_bases e "Exception" = true.
Proof. unfold isinstance. now intros ->. Qed.

Lemma ValueError_is_ValueError other_bases e :
  kind e = ValueError ->
  isinstance other_bases e "ValueError" = true
  /\ isinstance other_bases e "Exception" = true.
Proof. unfold isinstance. now intros ->. Qed.

Section CommandFacts.
Variable py_eval : string -> namespace -> result object.
Variable other_bases : string -> list string.
Variable world : Type.
Variable database : Type.
Variable handle_error : msg -> io world unit.
Variable load_database : string -> io world database.
Variable documents : database -> list document.
Variable close : database -> io world unit.
Variable print_documents : list document -> bool -> io world unit.

Let command :=
  execute_query_command py_eval other_bases world database handle_error
                        load_database documents close print_documents.
Let body :=
  query_command_body py_eval other_bases world database handle_error
                     load_database documents close print_documents.

(** What the body of the outer [try] returns is 0 or 1. *)
Lemma body_exit_code file_path s pretty w c w' :
  body file_path s pretty w = (Ok c, w') -> c = 0%Z \/ c = 1%Z.
Proof.
  unfold body, query_command_body, search_and_print, io_bind, io_ret, io_raise.
  destruct (parse_and_build_query py_eval s) as [q|e].
  - destruct (load_database file_path w) as [[db|e] w1].
    + destruct (search (documents db) q) as [m|e].
      * destruct (print_documents m pretty w1) as [[u|e] w2]; [|discriminate].
        destruct (close db w2) as [[u'|e] w3]; [|discriminate].
        intros [= <- _]. auto.
      * destruct (isinstance other_bases e "Exception"); [|discriminate].
        destruct (handle_error _ w1) as [[u|e'] w2]; [|discriminate].
        destruct (close db w2) as [[u'|e'] w3]; [|discriminate].
        intros [= <- _]. auto.
    + destruct (caught_on_load other_bases e); [|discriminate]. intros [= <- _]. auto.
  - destruct (isinstance other_bases e "ValueError"); [|discriminate].
    destruct (handle_error (message e) w) as [[u|e'] w1]; [|discriminate].
    intros [= <- _]. auto.
Qed.

(** X14.  When [handle_error] returns, the command returns with the exit
    code 0 or 1, whatever the other collaborators and [eval] do, but for
    one case: an exception that is no instance of [Exception], such as
    [KeyboardInterrupt] or [SystemExit], comes out of it as it is. *)
Theorem command_returns file_path s pretty w :
  (forall m w0, exists w1, handle_error m w0 = (Ok tt, w1)) ->
  (exists c w', command file_path s pretty w = (Ok c, w') /\ (c = 0%Z \/ c = 1%Z))
  \/ (exists e w', command file_path s pretty w = (Raise e, w')
                   /\ isinstance other_bases e "Exception" = false
                   /\ body file_path s pretty w = (Raise e, w')).
Proof.
  intros Hh. unfold command, execute_query_command, io_try.
  fold (body file_path s pretty).
  destruct (body file_path s pretty w) as [[c|e] w1] eqn:E.
  - left. exists c, w1. split; [reflexivity |]. eapply body_exit_code; eauto.
  - destruct (isinstance other_bases e "Exception") eqn:Ei.
    + left. unfold io_bind, io_ret.
      destruct (Hh (Join (Text "Unexpected error while querying documents: ")
                         (message e)) w1) as (w2 & ->).
      eauto.
    + right. eauto.
Qed.

(** X15.  The exit code is 0 only when the query was built, the store
    loaded, the search returned, and the printing and the closing returned;
    what was printed is the documents of the store the condition holds of,
    in their order, and the store was closed after it. *)
Theorem command_success file_path s pretty w w' :
  command file_path s pretty w = (Ok 0%Z, w') ->
  exists q db w1 w2,
    parse_and_build_query py_eval s = Ok q
    /\ load_database file_path w = (Ok db, w1)
    /\ search (documents db) q = Ok (filter (holds q) (documents db))
    /\ print_documents (filter (holds q) (documents db)) pretty w1 = (Ok tt, w2)
    /\ close db w2 = (Ok tt, w').
Proof.
  unfold command, execute_query_command, io_try.
  fold (body file_path s pretty).
  destruct (body file_path s pretty w) as [[c|e] w0] eqn:E.
  - intros [= -> ->]. revert E.
    unfold body, query_command_body, search_and_print, io_bind, io_ret, io_raise.
    destruct (parse_and_build_query py_eval s) as [q|e].
    + destruct (load_database file_path w) as [[db|e] w1].
      * destruct (search (documents db) q) as [m|e] eqn:Es.
        -- destruct (search_ok _ _ _ Es) as (-> & _).
           destruct (print_documents _ pretty w1) as [[[]|e] w2] eqn:Ep; [|discriminate].
           destruct (close db w2) as [[[]|e] w3] eqn:Ec; [|discriminate].
           intros [= <-]. exists q, db, w1, w2. auto.
        -- destruct (isinstance other_bases e "Exception"); [|discriminate].
           destruct (handle_error _ w1) as [[u|e'] w2]; [|discriminate].
           destruct (close db w2) as [[u'|e'] w3]; discriminate.
      * destruct (caught_on_load other_bases e); discriminate.
    + destruct (isinstance other_bases e "ValueError"); [|discriminate].
      destruct (handle_error (message e) w) as [[u|e'] w1]; discriminate.
  - destruct (isinstance other_bases e "Exception"); [|discriminate].
    unfold io_bind, io_ret.
    destruct (handle_error _ w0) as [[u|e'] w1]; discriminate.
Qed.

(** X16.  A query that is not built is reported once, with the text of its
    [ValueError], and the exit code is 1; the store is not loaded, and
    nothing is printed. *)
Theorem command_invalid_query file_path s pretty e w w1 :
  parse_and_build_query py_eval s = Raise e ->
  handle_error (message e) w = (Ok tt, w1) ->
  command file_path s pretty w = (Ok 1%Z, w1).
Proof.
  intros He Hh. unfold command, execute_query_command, io_try, query_command_body.
  rewrite He.
  pose proof (parse_and_build_query_raises_ValueError_aux py_eval s e He) as Hk.
  destruct (ValueError_is_ValueError other_bases e Hk) as (-> & _).
  unfold io_bind, io_ret. now rewrite Hh.
Qed.

(** X17.  When the condition raises on a document of the store, the
    failure of the search is reported with the text of the exception, the
    store is closed, nothing is printed, and the exit code is 1. *)
Theorem command_search_failure file_path s pretty q db e w w1 w2 w3 :
  parse_and_build_query py_eval s = Ok q ->
  load_database file_path w = (Ok db, w1) ->
  search (documents db) q = Raise e ->
  handle_error (Join (Text "Failed to search database: ") (message e)) w1
  = (Ok tt, w2) ->
  close db w2 = (Ok tt, w3) ->
  command file_path s pretty w = (Ok 1%Z, w3).
Proof.
  intros Hq Hl Hs Hh Hc.
  assert (He : isinstance other_bases e "Exception" = true).
  { destruct (search_raises _ _ _ Hs) as (doc & _ & Hr).
    apply OverflowError_is_Exception.
    exact (built_condition_raises py_eval s q doc e Hq Hr). }
  unfold command, execute_query_command, io_try, query_command_body, search_and_print.
  rewrite Hq, Hl, Hs, He. unfold io_bind, io_ret. now rewrite Hh, Hc.
Qed.

(** X18.  When the store cannot be loaded, nothing is searched, printed or
    closed.  With a [FileNotFoundError], a [PermissionError] or a
    [ValueError], or an exception of a class that derives from one of them,
    the command reports nothing itself and the exit code is 1; with another
    instance of [Exception] it reports an unexpected error and the exit
    code is 1; an exception that is no instance of [Exception] comes out
    as it is. *)
Theorem command_load_failure file_path s pretty q e w w1 :
  parse_and_build_query py_eval s = Ok q ->
  load_database file_path w = (Raise e, w1) ->
  (caught_on_load other_bases e = true ->
   command file_path s pretty w = (Ok 1%Z, w1))
  /\ (caught_on_load other_bases e = false ->
      isinstance other_bases e "Exception" = true ->
      forall w2,
        handle_error (Join (Text "Unexpected error while querying documents: ")
                           (message e)) w1 = (Ok tt, w2) ->
        command file_path s pretty w = (Ok 1%Z, w2))
  /\ (caught_on_load other_bases e = false ->
      isinstance other_bases e "Exception" = false ->
      command file_path s pretty w = (Raise e, w1)).
Proof.
  intros Hq Hl.
  unfold command, execute_query_command, io_try, query_command_body.
  rewrite Hq, Hl. repeat split.
  - now intros ->.
  - intros -> -> w2 Hh. unfold io_bind, io_ret. now rewrite Hh.
  - now intros -> ->.
Qed.
End CommandFacts.

(** The classes an [except] clause of the command stands for. *)
Example subclasses_are_caught :
  caught_on_load (fun _ => []) (Exn (OtherError "UnicodeDecodeError") (Text ""))
  = true
  /\ caught_on_load (fun name => if (name =? "JSONDecodeError")
                                 then ["ValueError"; "Exception"] else [])
                    (Exn (OtherError "JSONDecodeError") (Text "")) = true
  /\ caught_on_load (fun _ => []) (Exn (OtherError "IsADirectoryError") (Text ""))
     = false
  /\ isinstance (fun _ => []) (Exn (OtherError "IsADirectoryError") (Text ""))
                "Exception" = true
  /\ isinstance (fun _ => []) (Exn (OtherError "KeyboardInterrupt") (Text ""))
                "Exception" = false.
Proof. repeat split. Qed.

Lemma command_returns_witness :
  (exists c w',
      recorded_command two_documents "db.json" (VStr "age >= 21") true [] = (Ok c, w')
      /\ (c = 0%Z \/ c = 1%Z))
  \/ (exists e w',
      recorded_command two_documents "db.json" (VStr "age >= 21") true []
      = (Raise e, w')
      /\ isinstance (fun _ => []) e "Exception" = false
      /\ query_command_body eval_total (fun _ => []) recorded (list document)
           (fun m => record (Reported m)) (open_store two_documents) (fun db => db)
           (fun db => record (Closed db))
           (fun docs pretty => record (Printed docs pretty))
           "db.json" (VStr "age >= 21") true [] = (Raise e, w')).
Proof.
  apply (command_returns eval_total (fun _ => []) recorded (list document)
           (fun m => record (Reported m)) (open_store two_documents) (fun db => db)
           (fun db => record (Closed db)) (fun docs pretty => record (Printed docs pretty))).
  intros m w0. eexists. reflexivity.
Defined.

Lemma command_success_witness :
  exists (q : query) (db : list document) (w1 w2 : recorded),
    parse_and_build_query eval_total (VStr "age >= 21") = Ok q
    /\ open_store two_documents "db.json" [] = (Ok db, w1)
    /\ search db q = Ok (filter (holds q) db)
    /\ record (Printed (filter (holds q) db) true) w1 = (Ok tt, w2)
    /\ record (Closed db) w2
       = (Ok tt, [Printed [[("name", VStr "B"); ("age", VInt 35)]] true;
                  Closed [[("name", VStr "A"); ("age", VInt 20)];
                          [("name", VStr "B"); ("age", VInt 35)]]]).
Proof.
  apply (command_success eval_total (fun _ => []) recorded (list document)
           (fun m => record (Reported m)) (open_store two_documents) (fun db => db)
           (fun db => record (Closed db)) (fun docs pretty => record (Printed docs pretty))
           "db.json" (VStr "age >= 21") true []).
  reflexivity.
Defined.

Lemma command_invalid_query_witness :
  recorded_command two_documents "db.json" (VStr "age") true []
  = (Ok 1%Z, [Reported (message (invalid_query_format "age"))]).
Proof.
  apply (command_invalid_query eval_total (fun _ => []) recorded (list document)
           (fun m => record (Reported m)) (open_store two_documents) (fun db => db)
           (fun db => record (Closed db)) (fun docs pretty => record (Printed docs pretty))
           "db.json" (VStr "age") true (invalid_query_format "age"));
    reflexivity.
Defined.

Lemma command_search_failure_witness :
  recorded_command huge_document "db.json" (VStr "age > 1") true []
  = (Ok 1%Z,
     [Reported (Join (Text "Failed to search database: ")
                     (Text "int too large to convert to float"));
      Closed [[("name", VStr "C"); ("age", VInt (2 ^ 1024))]]]).
Proof.
  apply (command_search_failure eval_total (fun _ => []) recorded (list document)
           (fun m => record (Reported m)) (open_store huge_document) (fun db => db)
           (fun db => record (Closed db)) (fun docs pretty => record (Printed docs pretty))
           "db.json" (VStr "age > 1") true
           (Query "age" (numeric_test eval_total float_gt fone))
           [[("name", VStr "C"); ("age", VInt (2 ^ 1024))]]
           (Exn OverflowError (Text "int too large to convert to float"))
           [] []
           [Reported (Join (Text "Failed to search database: ")
                           (Text "int too large to convert to float"))]);
    reflexivity.
Defined.

(** A store whose file is not text in the expected encoding: the
    [UnicodeDecodeError] is a [ValueError]. *)
Lemma command_load_failure_witness :
  execute_query_command eval_total (fun _ => []) recorded (list document)
    (fun m => record (Reported m))
    (fun _ w => (Raise (Exn (OtherError "UnicodeDecodeError") (Text "invalid start byte")), w))
    (fun db => db) (fun db => record (Closed db))
    (fun docs pretty => record (Printed docs pretty))
    "db.json" (VStr "age > 1") true []
  = (Ok 1%Z, []).
Proof.
  refine (proj1 (command_load_failure eval_total (fun _ => []) recorded (list document)
           (fun m => record (Reported m))
           (fun _ w => (Raise (Exn (OtherError "UnicodeDecodeError")
                                   (Text "invalid start byte")), w))
           (fun db => db)
           (fun db => record (Closed db)) (fun docs pretty => record (Printed docs pretty))
           "db.json" (VStr "age > 1") true
           (Query "age" (numeric_test eval_total float_gt fone))
           (Exn (OtherError "UnicodeDecodeError") (Text "invalid start byte")) [] [] _ _) _);
    reflexivity.
Defined.
